(** * Model-run orchestration: the run control plane

    A shallow embedding of the admission path ([src/api/runs.py]), of the
    canonicalizer ([src/utils.py]) and of the worker-side lease and heartbeat
    protocol ([src/worker/loader.py], [src/worker/main.py]) over the schema
    of [src/infrastructure/models.py].

    - JSON values are an inductive type; a Python [dict] is the list of its
      items in insertion order (the order is what the canonicalizer has to
      erase), a Python [str] is the list of its code points.
    - The relational store is explicit state: the [model_runs] table is the
      list of its rows in the order the store yields them, the
      [idempotency_keys] table is a finite map from key to run id.
    - A conditional [UPDATE ... WHERE ... RETURNING id] is a value of
      [UpdateStmt]; the store's clock reading ([func.now()]) and the failure
      of the store, if any, are arguments of every statement.
    - Exceptions are an outcome: a call either [Returns] a value or [Raises].
    - What other sessions commit between two statements of one operation is
      an argument of that operation. *)

From Stdlib Require Import ZArith String Ascii List DecimalString Lia.
From stdpp Require Import base list strings gmap sorting.

Set Warnings "-register-all".
Open Scope string_scope.
Open Scope Z_scope.

(** ** src/utils.py *)

Module utils.

(** A Python [str]: its code points. [<] on [str] compares code points
    lexicographically. *)
Definition pystr := list N.

(** The [str] of an ASCII literal. *)
Definition py (s : string) : pystr :=
  map N_of_ascii (list_ascii_of_string s).

Fixpoint str_leb (a b : pystr) : bool :=
  match a, b with
  | [], _ => true
  | _ :: _, [] => false
  | x :: a', y :: b' =>
      if (x <? y)%N then true
      else if (x =? y)%N then str_leb a' b'
      else false
  end.

(** The values [request.json] can hold.  A [float] is carried as the text
    the encoder emits for it ([float.__repr__], or [NaN], [Infinity],
    [-Infinity]); a [JDict] holds the items of the dict in insertion
    order. *)
Inductive json : Type :=
| JNull
| JBool (b : bool)
| JInt (z : Z)
| JFloat (repr : string)
| JStr (s : pystr)
| JList (elems : list json)
| JDict (items : list (pystr * json)).

(** *** json.dumps(params, sort_keys=True, separators=(',', ':')) *)

Definition dquote : string := String "034"%char EmptyString.

Definition hex_digit (n : N) : ascii :=
  if (n <? 10)%N then ascii_of_N (48 + n) else ascii_of_N (87 + n).

(** ['\\u{0:04x}'.format(n)] *)
Definition u_escape (n : N) : string :=
  "\u" ++ String (hex_digit (N.shiftr n 12 mod 16))
          (String (hex_digit (N.shiftr n 8 mod 16))
          (String (hex_digit (N.shiftr n 4 mod 16))
          (String (hex_digit (n mod 16)) EmptyString))).

(** One character under [ensure_ascii] (the default of [json.dumps]):
    the short escapes, printable ASCII as it is, everything else as
    [\uXXXX], a surrogate pair above the basic plane. *)
Definition escape_char (c : N) : string :=
  if (c =? 34)%N then "\" ++ dquote
  else if (c =? 92)%N then "\\"
  else if (c =? 8)%N then "\b"
  else if (c =? 12)%N then "\f"
  else if (c =? 10)%N then "\n"
  else if (c =? 13)%N then "\r"
  else if (c =? 9)%N then "\t"
  else if ((32 <=? c) && (c <=? 126))%N then String (ascii_of_N c) EmptyString
  else if (c <? 65536)%N then u_escape c
  else
    let n := (c - 65536)%N in
    u_escape (N.lor 55296 (N.land (N.shiftr n 10) 1023)) ++
    u_escape (N.lor 56320 (N.land n 1023)).

Definition encode_basestring_ascii (s : pystr) : string :=
  dquote ++ String.concat EmptyString (map escape_char s) ++ dquote.

(** [sorted(dct.items())] on items whose second component is already
    rendered: the order is decided by the keys. *)
Definition key_le {A} (p q : pystr * A) : Prop := str_leb p.1 q.1 = true.

#[global] Instance key_le_dec {A} (p q : pystr * A) : Decision (key_le p q).
Proof. unfold key_le. apply _. Defined.

Definition sorted_items {A} (items : list (pystr * A)) : list (pystr * A) :=
  merge_sort key_le items.

Definition render_item (kv : pystr * string) : string :=
  encode_basestring_ascii kv.1 ++ ":" ++ kv.2.

Fixpoint dumps (j : json) : string :=
  match j with
  | JNull => "null"
  | JBool true => "true"
  | JBool false => "false"
  | JInt z => NilZero.string_of_int (Z.to_int z)
  | JFloat repr => repr
  | JStr s => encode_basestring_ascii s
  | JList elems => "[" ++ String.concat "," (map dumps elems) ++ "]"
  | JDict items =>
      "{" ++ String.concat ","
               (map render_item
                  (sorted_items (map (fun kv => (kv.1, dumps kv.2)) items)))
          ++ "}"
  end.

Section canonicalize.
  (** [hashlib.sha256(s.encode('utf-8')).hexdigest()], of the Python
      runtime. *)
Variable sha256_hexdigest : string -> string.

Definition canonicalize_params (params : list (pystr * json))
    : string * string :=
    let canonical_json := dumps (JDict params) in
    let payload_hash := sha256_hexdigest canonical_json in
    (canonical_json, payload_hash).
End canonicalize.

(** A Python dict has each key once, at every nesting level. *)
Fixpoint well_formed (j : json) : Prop :=
  match j with
  | JList elems => fold_right (fun e P => well_formed e /\ P) True elems
  | JDict items =>
      NoDup (map fst items) /\
      fold_right (fun kv P => well_formed kv.2 /\ P) True items
  | _ => True
  end.

Definition well_formed_elems (l : list json) : Prop :=
  fold_right (fun e P => well_formed e /\ P) True l.

Definition well_formed_items (m : list (pystr * json)) : Prop :=
  fold_right (fun kv P => well_formed kv.2 /\ P) True m.

(** The items of a dict with their values rendered, in insertion order. *)
Definition rendered (m : list (pystr * json)) : list (pystr * string) :=
  map (fun kv => (kv.1, dumps kv.2)) m.

(** [m'] is [m] with the keys of its dicts presented in another order, at
    any depth: lists keep their order, dicts are permuted. *)
Inductive permute_keys : json -> json -> Prop :=
| pk_null : permute_keys JNull JNull
| pk_bool b : permute_keys (JBool b) (JBool b)
| pk_int z : permute_keys (JInt z) (JInt z)
| pk_float r : permute_keys (JFloat r) (JFloat r)
| pk_str s : permute_keys (JStr s) (JStr s)
| pk_list l l' : permute_elems l l' -> permute_keys (JList l) (JList l')
| pk_dict m m' : permute_items m m' -> permute_keys (JDict m) (JDict m')
with permute_elems : list json -> list json -> Prop :=
| pe_nil : permute_elems [] []
| pe_cons j j' l l' :
    permute_keys j j' -> permute_elems l l' ->
    permute_elems (j :: l) (j' :: l')
with permute_items : list (pystr * json) -> list (pystr * json) -> Prop :=
| pi_nil : permute_items [] []
| pi_skip k v v' m m' :
    permute_keys v v' -> permute_items m m' ->
    permute_items ((k, v) :: m) ((k, v') :: m')
| pi_swap k1 v1 k2 v2 m :
    permute_items ((k1, v1) :: (k2, v2) :: m) ((k2, v2) :: (k1, v1) :: m)
| pi_trans m1 m2 m3 :
    permute_items m1 m2 -> permute_items m2 m3 -> permute_items m1 m3.

(** [tests/test_utils.py], nested case. *)
Definition nested_1 : list (pystr * json) :=
  [(py "config", JDict [(py "x", JInt 10); (py "y", JInt 20)]);
   (py "name", JStr (py "run1"))].
Definition nested_2 : list (pystr * json) :=
  [(py "name", JStr (py "run1"));
   (py "config", JDict [(py "y", JInt 20); (py "x", JInt 10)])].

Scheme permute_keys_mut := Minimality for permute_keys Sort Prop
  with permute_elems_mut := Minimality for permute_elems Sort Prop
  with permute_items_mut := Minimality for permute_items Sort Prop.

End utils.

(** ** src/infrastructure/models.py *)

Module models.

Inductive RunStatus := PENDING | RUNNING | SUCCEEDED | FAILED | CANCELLED.

#[global] Instance RunStatus_eq_dec : EqDecision RunStatus.
Proof. solve_decision. Defined.

(** [RunStatus] is a [str] enum: [status.value]. *)
Definition value (s : RunStatus) : string :=
  match s with
  | PENDING => "PENDING" | RUNNING => "RUNNING" | SUCCEEDED => "SUCCEEDED"
  | FAILED => "FAILED" | CANCELLED => "CANCELLED"
  end.

(** A [uuid.UUID]: its 128-bit integer. *)
Definition UUID := N.

Fixpoint hex_of (n : N) (digits : nat) : string :=
  match digits with
  | O => EmptyString
  | S d =>
      String (utils.hex_digit (N.shiftr n (4 * N.of_nat d) mod 16)%N)
             (hex_of n d)
  end.

(** [str(run_id)]: 32 hexadecimal digits in groups of 8-4-4-4-12. *)
Definition uuid_str (u : UUID) : string :=
  let h := hex_of u 32 in
  substring 0 8 h ++ "-" ++ substring 8 4 h ++ "-" ++ substring 12 4 h
    ++ "-" ++ substring 16 4 h ++ "-" ++ substring 20 12 h.

(** A timestamp of the store: microseconds on its clock. *)
Definition datetime := Z.

(** [timedelta(seconds=n)] *)
Definition timedelta (seconds : Z) : Z := seconds * 1000000.

(** A row of [model_runs]; [None] is SQL [NULL]. *)
Record ModelRun := {
  id : UUID;
  status : RunStatus;
  parameters : list (utils.pystr * utils.json);
  payload_hash : string;
  created_at : datetime;
  started_at : option datetime;
  finished_at : option datetime;
  attempt_count : Z;
  lease_owner : option string;
  lease_expires_at : option datetime;
  result_ref : option string;
  last_error : option string
}.

(** Modelled from the spec: the [IdempotencyKey] class that
    [src/api/runs.py] imports is not declared in this file; the spec gives
    its table as [idempotency_keys(key PRIMARY KEY, run_id FK)], a mapping
    from key to run id in which a key occurs once. *)
Record Db := {
  model_runs : list ModelRun;
  idempotency_keys : gmap string UUID
}.

(** The primary key of [model_runs]. *)
Definition primary_key (rows : list ModelRun) : Prop := NoDup (map id rows).

(** [session.get(ModelRun, run_id)] *)
Definition get (rows : list ModelRun) (run_id : UUID) : option ModelRun :=
  find (fun r => (id r =? run_id)%N) rows.

End models.

(** ** The session: statements, outcomes, exceptions *)

Module session.
Import models.

Inductive Exception :=
| IntegrityError (msg : string)
| MultipleResultsFound
| OperationalError (msg : string)
| RuntimeError (msg : string).

(** [str(e)] *)
Definition str (e : Exception) : string :=
  match e with
  | IntegrityError msg | OperationalError msg | RuntimeError msg => msg
  | MultipleResultsFound =>
      "Multiple rows were found when one or none was required"
  end.

Inductive outcome (A : Type) :=
| Returns (a : A)
| Raises (e : Exception).
Arguments Returns {A} a.
Arguments Raises {A} e.

(** [update(ModelRun).where(ModelRun.id == target).where(guard).values(..)
    .returning(ModelRun.id)]; [guard] and [assign] read the store's clock. *)
Record UpdateStmt := {
  target : UUID;
  guard : datetime -> ModelRun -> bool;
  assign : datetime -> ModelRun -> ModelRun
}.

Definition matches (stmt : UpdateStmt) (now : datetime) (r : ModelRun) : bool :=
  (id r =? target stmt)%N && guard stmt now r.

(** The rows after the statement, and the ids it returns. *)
Definition apply_update (stmt : UpdateStmt) (now : datetime)
    (rows : list ModelRun) : list ModelRun * list UUID :=
  (map (fun r => if matches stmt now r then assign stmt now r else r) rows,
   map id (List.filter (matches stmt now) rows)).

(** The table with [f] applied to the rows whose id is [run_id]. *)
Definition update_row (run_id : UUID) (f : ModelRun -> ModelRun)
    (rows : list ModelRun) : list ModelRun :=
  map (fun x => if (id x =? run_id)%N then f x else x) rows.

(** [session.execute(stmt)] followed by [session.commit()]: [failure] is the
    exception the store raises at either of them, if it does.  Nothing is
    committed then. *)
Definition execute (failure : option Exception) (stmt : UpdateStmt)
    (now : datetime) (rows : list ModelRun)
  : outcome (list ModelRun * list UUID) :=
  match failure with
  | Some e => Raises e
  | None => Returns (apply_update stmt now rows)
  end.

(** [result.scalar_one_or_none()] *)
Definition scalar_one_or_none (returned : list UUID) : outcome (option UUID) :=
  match returned with
  | [] => Returns None
  | [x] => Returns (Some x)
  | _ => Raises MultipleResultsFound
  end.

End session.

(** ** src/worker/loader.py *)

Module loader.
Import models session.

Definition LEASE_DURATION_SECONDS : Z := 60.

(** [status = PENDING OR (status = RUNNING AND lease_expires_at < now)];
    a comparison with [NULL] is not true. *)
Definition acquire_guard (now : datetime) (r : ModelRun) : bool :=
  match status r with
  | PENDING => true
  | RUNNING =>
      match lease_expires_at r with
      | Some t => t <? now
      | None => false
      end
  | _ => false
  end.

(** [func.coalesce(a, b)] *)
Definition coalesce {A} (a : option A) (b : A) : option A :=
  match a with Some _ => a | None => Some b end.

Definition acquire_values (worker_id : string) (now : datetime) (r : ModelRun)
  : ModelRun :=
  let expires_at := now + timedelta LEASE_DURATION_SECONDS in
  {| id := id r;
     status := RUNNING;
     parameters := parameters r;
     payload_hash := payload_hash r;
     created_at := created_at r;
     started_at := coalesce (started_at r) now;
     finished_at := finished_at r;
     attempt_count := attempt_count r + 1;
     lease_owner := Some worker_id;
     lease_expires_at := Some expires_at;
     result_ref := result_ref r;
     last_error := last_error r |}.

Definition acquire_stmt (run_id : UUID) (worker_id : string) : UpdateStmt :=
  {| target := run_id;
     guard := acquire_guard;
     assign := acquire_values worker_id |}.

(** [acquire_lease(run_id, worker_id)], at clock reading [now] of the store.
    An exception rolls the session back and is raised again. *)
Definition acquire_lease (run_id : UUID) (worker_id : string)
    (now : datetime) (failure : option Exception) (rows : list ModelRun)
  : outcome bool * list ModelRun :=
  match execute failure (acquire_stmt run_id worker_id) now rows with
  | Raises e => (Raises e, rows)
  | Returns (rows', returned) =>
      match scalar_one_or_none returned with
      | Raises e => (Raises e, rows)
      | Returns updated_id =>
          match updated_id with
          | Some _ => (Returns true, rows')
          | None => (Returns false, rows')
          end
      end
  end.

(** [lease_owner = worker_id] *)
Definition renew_guard (worker_id : string) (now : datetime) (r : ModelRun)
  : bool :=
  bool_decide (lease_owner r = Some worker_id).

Definition renew_values (now : datetime) (r : ModelRun) : ModelRun :=
  let new_expires_at := now + timedelta LEASE_DURATION_SECONDS in
  {| id := id r;
     status := status r;
     parameters := parameters r;
     payload_hash := payload_hash r;
     created_at := created_at r;
     started_at := started_at r;
     finished_at := finished_at r;
     attempt_count := attempt_count r;
     lease_owner := lease_owner r;
     lease_expires_at := Some new_expires_at;
     result_ref := result_ref r;
     last_error := last_error r |}.

Definition renew_stmt (run_id : UUID) (worker_id : string) : UpdateStmt :=
  {| target := run_id;
     guard := renew_guard worker_id;
     assign := renew_values |}.

(** [renew_lease(run_id, worker_id)]: an exception rolls the session back
    and the call returns [False]. *)
Definition renew_lease (run_id : UUID) (worker_id : string)
    (now : datetime) (failure : option Exception) (rows : list ModelRun)
  : outcome bool * list ModelRun :=
  match execute failure (renew_stmt run_id worker_id) now rows with
  | Raises e => (Returns false, rows)
  | Returns (rows', returned) =>
      match scalar_one_or_none returned with
      | Raises e => (Returns false, rows)
      | Returns updated_id =>
          let success := bool_decide (updated_id <> None) in
          (Returns success, rows')
      end
  end.

End loader.

(** ** src/worker/main.py *)

Module main.
Import models session loader.

Definition HEARTBEAT_INTERVAL : Z := 20.

(** One iteration of the heartbeat loop, as its environment decides it:
    the two readings of [stop_event], what other sessions commit during the
    sleep, the store's clock at the renewal and the failure of the store at
    the renewal, if any. *)
Record Tick := {
  stop_before_sleep : bool;
  concurrent : list ModelRun -> list ModelRun;
  stop_after_sleep : bool;
  tick_now : datetime;
  tick_failure : option Exception
}.

Inductive HeartbeatExit :=
| Stopped            (* [stop_event] was set *)
| HeartbeatFailed    (* the [heartbeat_failed] branch: [break] *)
| Crashed (e : Exception)  (* an exception left [renew_lease] *)
| Sleeping.          (* the thread is alive, the ticks given are used up *)

(** [HeartbeatThread.run]; the second component counts the calls of
    [renew_lease]. *)
Fixpoint heartbeat_run (run_id : UUID) (worker_id : string)
    (ticks : list Tick) (rows : list ModelRun)
  : HeartbeatExit * nat * list ModelRun :=
  match ticks with
  | [] => (Sleeping, O, rows)
  | k :: ticks' =>
      if stop_before_sleep k then (Stopped, O, rows)
      else
        let rows := concurrent k rows in
        if stop_after_sleep k then (Stopped, O, rows)
        else
          match renew_lease run_id worker_id (tick_now k) (tick_failure k) rows
          with
          | (Raises e, rows) => (Crashed e, 1%nat, rows)
          | (Returns false, rows) => (HeartbeatFailed, 1%nat, rows)
          | (Returns true, rows) =>
              let '(exit, n, rows) := heartbeat_run run_id worker_id ticks' rows
              in (exit, S n, rows)
          end
  end.

Definition result_dir : string := "/tmp/model_runs".

(** [os.path.join(result_dir, f"{run_id}.json")] *)
Definition result_path (run_id : UUID) : string :=
  result_dir ++ "/" ++ uuid_str run_id ++ ".json".

(** Step 6: [.where(ModelRun.lease_owner == worker_id)] *)
Definition success_values (result_path : string) (now : datetime)
    (r : ModelRun) : ModelRun :=
  {| id := id r;
     status := SUCCEEDED;
     parameters := parameters r;
     payload_hash := payload_hash r;
     created_at := created_at r;
     started_at := started_at r;
     finished_at := Some now;
     attempt_count := attempt_count r;
     lease_owner := lease_owner r;
     lease_expires_at := lease_expires_at r;
     result_ref := Some result_path;
     last_error := last_error r |}.

Definition success_stmt (run_id : UUID) (worker_id : string)
    (result_path : string) : UpdateStmt :=
  {| target := run_id;
     guard := fun _ r => bool_decide (lease_owner r = Some worker_id);
     assign := success_values result_path |}.

(** Step 7: [update(ModelRun).where(ModelRun.id == run_id).values(..)],
    with no other [where]. *)
Definition failure_values (error : string) (now : datetime) (r : ModelRun)
  : ModelRun :=
  {| id := id r;
     status := FAILED;
     parameters := parameters r;
     payload_hash := payload_hash r;
     created_at := created_at r;
     started_at := started_at r;
     finished_at := Some now;
     attempt_count := attempt_count r;
     lease_owner := lease_owner r;
     lease_expires_at := lease_expires_at r;
     result_ref := result_ref r;
     last_error := Some error |}.

Definition failure_stmt (run_id : UUID) (error : string) : UpdateStmt :=
  {| target := run_id;
     guard := fun _ _ => true;
     assign := failure_values error |}.

(** What the environment of one [execute_run] decides: the identity of the
    worker process, the clock and the failures of the store at each
    statement, the model runner, the result file, and what other sessions
    (other workers, this worker's heartbeat) commit while the model runs. *)
Record Execution := {
  worker_id : string;
  acquire_now : datetime;
  acquire_failure : option Exception;
  fetch_failure : option Exception;
  runner_run : list (utils.pystr * utils.json) -> outcome utils.json;
  sink_failure : option Exception;
  while_running : list ModelRun -> list ModelRun;
  success_now : datetime;
  success_failure : option Exception;
  failure_now : datetime;
  failure_failure : option Exception
}.

(** Steps 3 to 6, the body of [try]. *)
Definition attempt (e : Execution) (run_id : UUID) (rows : list ModelRun)
  : outcome unit * list ModelRun :=
  match fetch_failure e with
  | Some x => (Raises x, rows)
  | None =>
      match get rows run_id with
      | None => (Returns tt, rows)
      | Some model_run =>
          let params := parameters model_run in
          let rows := while_running e rows in
          match runner_run e params with
          | Raises x => (Raises x, rows)
          | Returns result_data =>
              match sink_failure e with
              | Some x => (Raises x, rows)
              | None =>
                  let stmt :=
                    success_stmt run_id (worker_id e) (result_path run_id) in
                  match execute (success_failure e) stmt (success_now e) rows
                  with
                  | Raises x => (Raises x, rows)
                  | Returns (rows', _) => (Returns tt, rows')
                  end
              end
          end
      end
  end.

(** [execute_run(run_id)] *)
Definition execute_run (e : Execution) (run_id : UUID) (rows : list ModelRun)
  : outcome unit * list ModelRun :=
  match acquire_lease run_id (worker_id e) (acquire_now e) (acquire_failure e)
          rows
  with
  | (Raises x, rows) => (Raises x, rows)
  | (Returns false, rows) => (Returns tt, rows)
  | (Returns true, rows) =>
      match attempt e run_id rows with
      | (Returns tt, rows) => (Returns tt, rows)
      | (Raises x, rows) =>
          let stmt := failure_stmt run_id (str x) in
          match execute (failure_failure e) stmt (failure_now e) rows with
          | Raises db_e => (Returns tt, rows)
          | Returns (rows', _) => (Returns tt, rows')
          end
      end
  end.

End main.

(** ** src/api/runs.py *)

Module runs.
Import utils models session.

(** [request.json] ([None] when the body is not JSON) and
    [request.headers.get('Idempotency-Key')]. *)
Record Request := {
  json_body : option json;
  idempotency_key_header : option string
}.

(** [_serialize_run(run)]; timestamps are kept as values. *)
Record SerializedRun := {
  s_id : string;
  s_status : string;
  s_created_at : datetime;
  s_parameters : list (pystr * json);
  s_started_at : option datetime;
  s_finished_at : option datetime;
  s_attempt_count : Z
}.

Definition _serialize_run (run : ModelRun) : SerializedRun :=
  {| s_id := uuid_str (id run);
     s_status := value (status run);
     s_created_at := created_at run;
     s_parameters := parameters run;
     s_started_at := started_at run;
     s_finished_at := finished_at run;
     s_attempt_count := attempt_count run |}.

Inductive Body :=
| RunBody (run : SerializedRun)
| ErrorBody (error : string).

Definition Response : Type := Body * Z.

(** [dct.get(key)] on the items of a dict. *)
Definition dict_get (items : list (pystr * json)) (key : pystr) : option json :=
  snd <$> find (fun kv => bool_decide (kv.1 = key)) items.

(** Step 1, the construction of [CreateRunRequest] from [request.json]: a
    body that is no JSON object gives 400, an object without a dict under
    [parameters] 422. *)
Definition validate (req : Request) : Response + list (pystr * json) :=
  match json_body req with
  | Some (JDict items) =>
      match dict_get items (py "parameters") with
      | Some (JDict parameters) => inr parameters
      | _ => inl (ErrorBody "Invalid request body", 422)
      end
  | _ => inl (ErrorBody "Invalid JSON", 400)
  end.

(** [if idempotency_key_header:] an absent header and an empty one are
    both false. *)
Definition truthy (header : option string) : option string :=
  match header with
  | Some EmptyString => None
  | h => h
  end.

Definition _inspect_run (db : Db) (run_id : UUID) : Response :=
  match get (model_runs db) run_id with
  | Some run => (RunBody (_serialize_run run), 200)
  | None => (ErrorBody "Idempotency key maps to non-existent run", 500)
  end.

Definition active (r : ModelRun) : bool :=
  match status r with PENDING | RUNNING => true | _ => false end.

(** Step 3, [db.scalar(select(ModelRun).where(payload_hash == h,
    status.in_([PENDING, RUNNING])))]: the first row the store yields; the
    statement has no [ORDER BY]. *)
Definition select_active_duplicate (payload_hash' : string)
    (rows : list ModelRun) : option ModelRun :=
  find (fun r => bool_decide (payload_hash r = payload_hash') && active r) rows.

(** What the environment of one request decides: the start of the request's
    transaction on the store's clock ([func.now()]), the value of
    [uuid.uuid4()], the failure of the store at each statement, if any, what
    other sessions commit between the statements, and the failure of the
    queue. *)
Record Schedule := {
  now : datetime;
  new_id : UUID;
  lookup_failure : option Exception;
  before_dedup : Db -> Db;
  dedup_failure : option Exception;
  before_insert : Db -> Db;
  commit_failure : option Exception;
  enqueue_failure : option Exception
}.

Definition new_run (sch : Schedule) (parameters : list (pystr * json))
    (payload_hash : string) : ModelRun :=
  {| id := new_id sch;
     status := PENDING;
     parameters := parameters;
     payload_hash := payload_hash;
     created_at := now sch;
     started_at := None;
     finished_at := None;
     attempt_count := 0;
     lease_owner := None;
     lease_expires_at := None;
     result_ref := None;
     last_error := None |}.

(** Steps 4 and 5, [db.add(new_run); db.flush(); db.add(ikey); db.commit()]:
    the primary keys of both tables are checked by the store. *)
Definition insert_and_commit (sch : Schedule) (run : ModelRun)
    (key : option string) (db : Db) : outcome Db :=
  if bool_decide (id run ∈ map id (model_runs db))
  then Raises (IntegrityError "model_runs_pkey")
  else
    match key with
    | Some k =>
        match idempotency_keys db !! k with
        | Some _ => Raises (IntegrityError "idempotency_keys_pkey")
        | None =>
            match commit_failure sch with
            | Some e => Raises e
            | None =>
                Returns {| model_runs := model_runs db ++ [run];
                           idempotency_keys :=
                             <[k := id run]> (idempotency_keys db) |}
            end
        end
    | None =>
        match commit_failure sch with
        | Some e => Raises e
        | None =>
            Returns {| model_runs := model_runs db ++ [run];
                       idempotency_keys := idempotency_keys db |}
        end
    end.

(** The two [except] clauses of [create_run]; the session is rolled back,
    [db] is what is committed. *)
Definition on_exception (e : Exception) (db : Db)
  : Response * Db * list UUID :=
  match e with
  | IntegrityError _ => ((ErrorBody "Conflict during creation", 409), db, [])
  | _ => ((ErrorBody "Internal Server Error", 500), db, [])
  end.

Section create_run.
Variable sha256_hexdigest : string -> string.

  (** Steps 3 to 6: from the duplicate lookup on. *)
Definition create_from_dedup (sch : Schedule) (key : option string)
      (parameters : list (pystr * json)) (payload_hash : string) (db : Db)
    : Response * Db * list UUID :=
    let db := before_dedup sch db in
    match dedup_failure sch with
    | Some e => on_exception e db
    | None =>
        match select_active_duplicate payload_hash (model_runs db) with
        | Some active_duplicate =>
            ((RunBody (_serialize_run active_duplicate), 200), db, [])
        | None =>
            let db := before_insert sch db in
            let run := new_run sch parameters payload_hash in
            match insert_and_commit sch run key db with
            | Raises e => on_exception e db
            | Returns db' =>
                let enqueued :=
                  match enqueue_failure sch with
                  | Some _ => []
                  | None => [id run]
                  end in
                ((RunBody (_serialize_run run), 201), db', enqueued)
            end
        end
    end.

  (** [POST /runs]: the response, the store afterwards and the run ids
      handed to the queue. *)
Definition create_run (req : Request) (sch : Schedule) (db : Db)
    : Response * Db * list UUID :=
    match validate req with
    | inl response => (response, db, [])
    | inr parameters =>
        let '(canonical_json, payload_hash) :=
          canonicalize_params sha256_hexdigest parameters in
        match truthy (idempotency_key_header req) with
        | Some key =>
            match lookup_failure sch with
            | Some e => on_exception e db
            | None =>
                match idempotency_keys db !! key with
                | Some run_id => (_inspect_run db run_id, db, [])
                | None =>
                    create_from_dedup sch (Some key) parameters payload_hash db
                end
            end
        | None => create_from_dedup sch None parameters payload_hash db
        end
    end.
End create_run.

End runs.

(** ** The update operations of the program, as calls on one run *)

Module protocol.
Import models session loader main.

(** The four statements that write a run row: the two of
    [src/worker/loader.py] and steps 6 and 7 of [execute_run]. *)
Inductive Op :=
| Acquire (worker_id : string)
| Renew (worker_id : string)
| FinalizeSuccess (worker_id : string) (result_path : string)
| FinalizeFailure (error : string).

(** A call: the operation, the store's clock when it runs and the failure
    of the store, if any. *)
Record Call := {
  op : Op;
  call_now : datetime;
  call_failure : option Exception
}.

Definition stmt_of (run_id : UUID) (o : Op) : UpdateStmt :=
  match o with
  | Acquire w => acquire_stmt run_id w
  | Renew w => renew_stmt run_id w
  | FinalizeSuccess w path => success_stmt run_id w path
  | FinalizeFailure error => failure_stmt run_id error
  end.

Definition run_stmt (failure : option Exception) (stmt : UpdateStmt)
    (now : datetime) (rows : list ModelRun) : list ModelRun :=
  match execute failure stmt now rows with
  | Raises _ => rows
  | Returns (rows', _) => rows'
  end.

(** The table after the call. *)
Definition perform (run_id : UUID) (c : Call) (rows : list ModelRun)
  : list ModelRun :=
  match op c with
  | Acquire w => (acquire_lease run_id w (call_now c) (call_failure c) rows).2
  | Renew w => (renew_lease run_id w (call_now c) (call_failure c) rows).2
  | FinalizeSuccess w path =>
      run_stmt (call_failure c) (success_stmt run_id w path) (call_now c) rows
  | FinalizeFailure error =>
      run_stmt (call_failure c) (failure_stmt run_id error) (call_now c) rows
  end.

(** Whether the call is an [acquire_lease] that returns [True]. *)
Definition acquires (run_id : UUID) (c : Call) (rows : list ModelRun) : bool :=
  match op c with
  | Acquire w =>
      match acquire_lease run_id w (call_now c) (call_failure c) rows with
      | (Returns true, _) => true
      | _ => false
      end
  | _ => false
  end.

(** The calls run one after the other, each atomically; the number of
    [acquire_lease] calls among them that return [True]. *)
Fixpoint acquisitions (run_id : UUID) (calls : list Call)
    (rows : list ModelRun) : nat :=
  match calls with
  | [] => O
  | c :: calls' =>
      (if acquires run_id c rows then 1 else 0)%nat
      + acquisitions run_id calls' (perform run_id c rows)
  end.

Fixpoint perform_all (run_id : UUID) (calls : list Call)
    (rows : list ModelRun) : list ModelRun :=
  match calls with
  | [] => rows
  | c :: calls' => perform_all run_id calls' (perform run_id c rows)
  end.

(** No [acquire_lease] on [run_id] can succeed up to the end of the lease
    window that opens at [T]. *)
Definition locked (T : datetime) (run_id : UUID) (rows : list ModelRun)
  : Prop :=
  forall r now,
    get rows run_id = Some r ->
    now <= T + timedelta LEASE_DURATION_SECONDS ->
    acquire_guard now r = false.

Definition terminal (s : RunStatus) : bool :=
  match s with SUCCEEDED | FAILED | CANCELLED => true | _ => false end.

End protocol.

(** ** Concrete runs and environments *)

Module scenarios.
Import utils models session loader main.

(** A run as [POST /runs] inserts it. *)
Definition fresh_run (run_id : UUID) (t : datetime) : ModelRun :=
  {| id := run_id;
     status := PENDING;
     parameters := [(py "x", JInt 1)];
     payload_hash := "h";
     created_at := t;
     started_at := None;
     finished_at := None;
     attempt_count := 0;
     lease_owner := None;
     lease_expires_at := None;
     result_ref := None;
     last_error := None |}.

Definition quiet (rows : list ModelRun) : list ModelRun := rows.

Definition mock_result : json :=
  JDict [(py "accuracy", JFloat "0.9"); (py "processed_items", JInt 500)].

(** Worker B: acquires at 90 s, the model succeeds, step 6 runs at 100 s. *)
Definition worker_B : Execution :=
  {| worker_id := "host-b-202";
     acquire_now := timedelta 90;
     acquire_failure := None;
     fetch_failure := None;
     runner_run := fun _ => Returns mock_result;
     sink_failure := None;
     while_running := quiet;
     success_now := timedelta 100;
     success_failure := None;
     failure_now := timedelta 100;
     failure_failure := None |}.

(** The run after worker B has executed it from [fresh_run 1 0]: SUCCEEDED,
    [lease_owner] still B. *)
Definition completed_by_B : ModelRun :=
  {| id := 1%N;
     status := SUCCEEDED;
     parameters := [(py "x", JInt 1)];
     payload_hash := "h";
     created_at := 0;
     started_at := Some (timedelta 90);
     finished_at := Some (timedelta 100);
     attempt_count := 1;
     lease_owner := Some "host-b-202";
     lease_expires_at := Some (timedelta 150);
     result_ref := Some (result_path 1%N);
     last_error := None |}.

(** The heartbeat of worker A wakes once, at 20 s, and the store is
    unreachable then. *)
Definition outage_tick : Tick :=
  {| stop_before_sleep := false;
     concurrent := quiet;
     stop_after_sleep := false;
     tick_now := timedelta 20;
     tick_failure := Some (OperationalError "connection refused") |}.

Definition heartbeat_A (rows : list ModelRun) : list ModelRun :=
  (heartbeat_run 1%N "host-a-101" [outage_tick] rows).2.

(** Worker A: acquires at 0 s and its model raises at 200 s; [concurrently]
    is what happens in between. *)
Definition worker_A (concurrently : list ModelRun -> list ModelRun)
  : Execution :=
  {| worker_id := "host-a-101";
     acquire_now := 0;
     acquire_failure := None;
     fetch_failure := None;
     runner_run := fun _ =>
       Raises (RuntimeError "Simulated random failure in MockModelRunner");
     sink_failure := None;
     while_running := concurrently;
     success_now := timedelta 200;
     success_failure := None;
     failure_now := timedelta 200;
     failure_failure := None |}.

(** While A's model runs: A's heartbeat stops at the outage, A's lease
    runs out at 60 s, B acquires the run at 90 s and is executing it. *)
Definition B_takes_over (rows : list ModelRun) : list ModelRun :=
  (acquire_lease 1%N "host-b-202" (timedelta 90) None (heartbeat_A rows)).2.

(** The same, and B completes the run at 100 s. *)
Definition B_completes (rows : list ModelRun) : list ModelRun :=
  (execute_run worker_B 1%N (heartbeat_A rows)).2.

(** *** Admissions *)

(** A stand-in for the digest where its value plays no part. *)
Definition stand_in_digest (s : string) : string := s.

Definition empty_db : Db := {| model_runs := []; idempotency_keys := ∅ |}.

(** [POST /runs] with body [{"parameters": {"x": x}}]. *)
Definition post (x : string) (key : option string) : runs.Request :=
  {| runs.json_body :=
       Some (JDict [(py "parameters", JDict [(py "x", JStr (py x))])]);
     runs.idempotency_key_header := key |}.

(** A request served with nothing else going on: its transaction starts at
    [t], [uuid4()] gives [u]. *)
Definition calm (t : datetime) (u : UUID) : runs.Schedule :=
  {| runs.now := t;
     runs.new_id := u;
     runs.lookup_failure := None;
     runs.before_dedup := fun db => db;
     runs.dedup_failure := None;
     runs.before_insert := fun db => db;
     runs.commit_failure := None;
     runs.enqueue_failure := None |}.

(** What another request commits: its [create_run], whole. *)
Definition concurrent_post (req : runs.Request) (sch : runs.Schedule)
    (db : Db) : Db :=
  (runs.create_run stand_in_digest req sch db).1.2.

(** A request whose transaction starts at [t] and which is overtaken,
    between its duplicate lookup and its commit, by [other]. *)
Definition overtaken (t : datetime) (u : UUID) (other : Db -> Db)
  : runs.Schedule :=
  {| runs.now := t;
     runs.new_id := u;
     runs.lookup_failure := None;
     runs.before_dedup := fun db => db;
     runs.dedup_failure := None;
     runs.before_insert := other;
     runs.commit_failure := None;
     runs.enqueue_failure := None |}.

(** Two admissions of the same parameters without a key race: the first
    starts at 1 and finds no duplicate, the second starts at 2 and commits,
    then the first commits. *)
Definition raced_db : Db :=
  (runs.create_run stand_in_digest (post "A" None)
     (overtaken 1 1%N (concurrent_post (post "A" None) (calm 2 2%N)))
     empty_db).1.2.

(** The run that [post "A" _] inserts when its transaction starts at [t]
    and [uuid4()] gives [u]. *)
Definition inserted (t : datetime) (u : UUID) : ModelRun :=
  runs.new_run (calm t u) [(py "x", JStr (py "A"))]
    (canonicalize_params stand_in_digest [(py "x", JStr (py "A"))]).2.

(** The store after [post "A" (Some "K")] has been served at 10. *)
Definition bound_db : Db :=
  concurrent_post (post "A" (Some "K")) (calm 10 1%N) empty_db.

End scenarios.

(** ** src/api/runs.py, the read endpoints *)

Module runs_read.
Import utils models session runs.

(** [GET /runs/<uuid:run_id>] *)
Definition get_run (db : Db) (run_id : UUID) : Response :=
  match get (model_runs db) run_id with
  | None => (ErrorBody "Run not found", 404)
  | Some run => (RunBody (_serialize_run run), 200)
  end.

(** The bodies of [GET /runs/<uuid:run_id>/result]. *)
Inductive ResultBody :=
| ResultReference (run_id : string) (result_reference : option string)
    (note : string)
| ResultNotAvailable (error : string) (status' : string)
| ResultError (error : string).

(** [GET /runs/<uuid:run_id>/result] *)
Definition get_run_result (db : Db) (run_id : UUID) : ResultBody * Z :=
  match get (model_runs db) run_id with
  | None => (ResultError "Run not found", 404)
  | Some run =>
      if bool_decide (status run <> SUCCEEDED)
      then (ResultNotAvailable "Result not available" (value (status run)),
            409)
      else (ResultReference (uuid_str (id run)) (result_ref run)
              "Content retrieval not implemented until Phase 5", 200)
  end.

End runs_read.

(** ** src/api/health.py *)

Module health.
Import session.

(** [GET /healthz]: [db_failure] is the exception of [SELECT 1], if any,
    [redis_failure] that of the connection or the ping.  The [status] dict
    is updated in place, key by key. *)
Definition health_check (db_failure redis_failure : option Exception)
  : gmap string string * Z :=
  let status : gmap string string :=
    <["status" := "ok"]> (<["db" := "unknown"]>
      (<["redis" := "unknown"]> ∅)) in
  let status :=
    match db_failure with
    | None => <["db" := "ok"]> status
    | Some e => <["status" := "degraded"]> (<["db" := "error"]> status)
    end in
  let status :=
    match redis_failure with
    | None => <["redis" := "ok"]> status
    | Some e => <["status" := "degraded"]> (<["redis" := "error"]> status)
    end in
  let http_code :=
    if bool_decide (status !! "status" = Some "ok") then 200 else 503 in
  (status, http_code).

End health.

(** ** Invariants of the store and undisturbed environments *)

Module invariants.
Import models session loader main runs.

(** Every bound idempotency key points to a run of [model_runs]
    ([run_id] is a foreign key). *)
Definition foreign_key (db : Db) : Prop :=
  forall key run_id,
    idempotency_keys db !! key = Some run_id ->
    run_id ∈ map id (model_runs db).

Definition consistent (db : Db) : Prop :=
  primary_key (model_runs db) /\ foreign_key db.

(** A heartbeat iteration in which nothing interferes: [stop_event] is not
    set, no other session commits, the store does not fail. *)
Definition undisturbed (k : Tick) : Prop :=
  stop_before_sleep k = false /\
  stop_after_sleep k = false /\
  tick_failure k = None /\
  forall rows, concurrent k rows = rows.

(** The clock of the last iteration. *)
Definition last_tick_now (ticks : list Tick) : option datetime :=
  tick_now <$> last ticks.

(** The table a worker finds when its model returns: after its own
    acquisition and what went on meanwhile. *)
Definition found (e : Execution) (run_id : UUID) (rows : list ModelRun)
  : list ModelRun :=
  while_running e
    (update_row run_id (acquire_values (worker_id e) (acquire_now e)) rows).

End invariants.

(** * Properties *)

(** ** The canonicalizer *)

Module utils_spec.
Import utils.

Ltac cmp_cases :=
  repeat match goal with
  | |- context [(?x <? ?y)%N] => destruct (N.ltb_spec x y)
  | |- context [(?x =? ?y)%N] => destruct (N.eqb_spec x y)
  | H : context [(?x <? ?y)%N] |- _ => destruct (N.ltb_spec x y)
  | H : context [(?x =? ?y)%N] |- _ => destruct (N.eqb_spec x y)
  end.

Lemma str_leb_total a b : str_leb a b = true \/ str_leb b a = true.
Proof.
  revert b; induction a as [|x a IH]; intros [|y b]; simpl; auto.
  cmp_cases; subst; auto; lia.
Qed.

Lemma str_leb_antisym a b : str_leb a b = true -> str_leb b a = true -> a = b.
Proof.
  revert b; induction a as [|x a IH]; intros [|y b]; simpl; try done.
  cmp_cases; subst; try done; try lia. intros. f_equal. by apply IH.
Qed.

Lemma str_leb_trans a b c :
  str_leb a b = true -> str_leb b c = true -> str_leb a c = true.
Proof.
  revert b c; induction a as [|x a IH]; intros [|y b] [|z c]; simpl; try done.
  cmp_cases; subst; try done; try lia. apply IH.
Qed.

#[local] Instance key_le_total {A} : Total (@key_le A).
Proof. intros p q. apply str_leb_total. Qed.

#[local] Instance key_le_trans {A} : Transitive (@key_le A).
Proof. intros p q r. apply str_leb_trans. Qed.

(** In a list with each key once, a key determines its item. *)
Lemma NoDup_keys_item {A} (l : list (pystr * A)) p q :
  NoDup (map fst l) -> In p l -> In q l -> p.1 = q.1 -> p = q.
Proof.
  induction l as [|x l IH]; simpl; [done|].
  intros Hnd [->|Hp] [->|Hq] Hk; try done.
  - apply NoDup_cons_1_1 in Hnd. exfalso. apply Hnd.
    apply list_elem_of_In. rewrite Hk. by apply in_map.
  - apply NoDup_cons_1_1 in Hnd. exfalso. apply Hnd.
    apply list_elem_of_In. rewrite <- Hk. by apply in_map.
  - apply IH; try done. by apply NoDup_cons_1_2 in Hnd.
Qed.

(** Sorting erases the order in which a dict presents its items. *)
Lemma sorted_items_perm {A} (l l' : list (pystr * A)) :
  NoDup (map fst l) -> l ≡ₚ l' -> sorted_items l = sorted_items l'.
Proof.
  intros Hnd Hp. unfold sorted_items.
  apply (Sorted_unique_strong key_le).
  - intros p q Hp1 Hq1 H1 H2.
    apply (NoDup_keys_item l); try done.
    + apply list_elem_of_In. by rewrite <- (merge_sort_Permutation key_le l).
    + apply list_elem_of_In.
      by rewrite Hp, <- (merge_sort_Permutation key_le l').
    + by apply str_leb_antisym.
  - apply Sorted_merge_sort, _.
  - apply Sorted_merge_sort, _.
  - by rewrite !merge_sort_Permutation.
Qed.

Lemma rendered_keys m : map fst (rendered m) = map fst m.
Proof. unfold rendered. rewrite map_map. by apply map_ext. Qed.

(** Presenting the keys in another order keeps well-formedness and the
    output of [dumps], at every depth. *)
Lemma dumps_permute_keys j j' :
  permute_keys j j' -> well_formed j -> well_formed j' /\ dumps j = dumps j'.
Proof.
  revert j j'.
  apply (permute_keys_mut
    (fun j j' => well_formed j -> well_formed j' /\ dumps j = dumps j')
    (fun l l' => well_formed_elems l ->
       well_formed_elems l' /\ map dumps l = map dumps l')
    (fun m m' => well_formed_items m -> NoDup (map fst m) ->
       well_formed_items m' /\ NoDup (map fst m') /\
       rendered m ≡ₚ rendered m')); try done.
  - (* lists *)
    intros l l' _ IH Hwf. destruct (IH Hwf) as [Hwf' Heq].
    split; [done|]. simpl. by rewrite Heq.
  - (* dicts *)
    intros m m' _ IH [Hnd Hwf]. destruct (IH Hwf Hnd) as (Hwf' & Hnd' & Hp).
    split; [done|]. simpl. fold (rendered m) (rendered m').
    rewrite (sorted_items_perm (rendered m) (rendered m')); try done.
    by rewrite rendered_keys.
  - intros j j' l l' _ IHj _ IHl [Hj Hl].
    destruct (IHj Hj) as [? Hd], (IHl Hl) as [? Hm].
    split; [done|]. simpl. by rewrite Hd, Hm.
  - intros k v v' m m' _ IHv _ IHm [Hv Hm] Hnd.
    simpl in Hnd. apply NoDup_cons in Hnd as [Hk Hnd].
    destruct (IHv Hv) as [? Hd], (IHm Hm Hnd) as (? & Hnd' & Hp).
    split; [done|]. split.
    + simpl. apply NoDup_cons. split; [|done].
      rewrite <- rendered_keys, <- Hp, rendered_keys. done.
    + simpl. rewrite Hd. by constructor.
  - intros k1 v1 k2 v2 m (H1 & H2 & Hm) Hnd.
    split; [done|]. split; [|apply perm_swap].
    simpl in *. by rewrite (Permutation_swap k1 k2).
  - intros m1 m2 m3 _ IH12 _ IH23 Hwf Hnd.
    destruct (IH12 Hwf Hnd) as (Hwf2 & Hnd2 & Hp12).
    destruct (IH23 Hwf2 Hnd2) as (Hwf3 & Hnd3 & Hp23).
    split; [done|]. split; [done|]. by rewrite Hp12.
Qed.

(** [permute_keys] is reflexive and [permute_items] contains every
    permutation of the items. *)
Lemma permute_keys_refl : forall j, permute_keys j j.
Proof.
  fix IH 1. intros [ | | | | |l|m]; constructor.
  - induction l as [|j l IHl]; constructor; [apply IH|apply IHl].
  - induction m as [|[k v] m IHm]; constructor; [apply IH|apply IHm].
Qed.

Lemma Permutation_permute_items m m' : m ≡ₚ m' -> permute_items m m'.
Proof.
  induction 1 as [|[k v] m m' _ IH|[k1 v1] [k2 v2] m|m1 m2 m3 _ IH1 _ IH2].
  - constructor.
  - constructor; [apply permute_keys_refl|done].
  - apply pi_swap.
  - by apply pi_trans with m2.
Qed.

Lemma permute_items_Permutation_keys m m' :
  permute_items m m' -> map fst m ≡ₚ map fst m'.
Proof.
  induction 1 as [|k v v' m m' _ _ IH|k1 v1 k2 v2 m|m1 m2 m3 _ IH1 _ IH2];
    simpl.
  - done.
  - by constructor.
  - apply perm_swap.
  - by rewrite IH1.
Qed.

(** [dumps] renders the values of a dict before it sorts the items; the
    encoder sorts the items and renders them in that order.  The two
    agree. *)
Lemma dumps_dict_sorted_first m :
  NoDup (map fst m) ->
  dumps (JDict m) =
  "{" ++ String.concat ","
           (map (fun kv => encode_basestring_ascii kv.1 ++ ":" ++ dumps kv.2)
                (sorted_items m))
      ++ "}".
Proof.
  intros Hnd. simpl. do 3 f_equal.
  fold (rendered m).
  assert (sorted_items (rendered m) = rendered (sorted_items m)) as ->.
  { unfold sorted_items. apply (Sorted_unique_strong key_le).
    - intros p q Hp Hq H1 H2.
      apply (NoDup_keys_item (rendered m)).
      + by rewrite rendered_keys.
      + apply list_elem_of_In.
        by rewrite <- (merge_sort_Permutation key_le (rendered m)).
      + apply list_elem_of_In, in_map_iff in Hq as (x & <- & Hx).
        apply (in_map (fun kv => (kv.1, dumps kv.2))), list_elem_of_In.
        apply list_elem_of_In in Hx.
        by rewrite (merge_sort_Permutation key_le m) in Hx.
      + by apply str_leb_antisym.
    - apply Sorted_merge_sort, _.
    - change (Sorted key_le
                ((fun kv => (kv.1, dumps kv.2)) <$> merge_sort key_le m)).
      apply (Sorted_fmap _ key_le key_le); [done|].
      apply Sorted_merge_sort, _.
    - rewrite merge_sort_Permutation. unfold rendered.
      apply Permutation_map. by rewrite merge_sort_Permutation. }
  unfold rendered. rewrite map_map. done.
Qed.

(** C9. For every mapping [m] (a dict, with each key once at every nesting
    level) and every [m'] that is [m] with its keys presented in another
    order, at any depth, [canonicalize_params] gives the same canonical
    string and the same SHA-256 hex digest; being a function, it gives the
    same output for the same input. *)
Theorem canonicalize_params_key_order
    (sha256_hexdigest : string -> string) (m m' : list (pystr * json)) :
  well_formed (JDict m) ->
  permute_items m m' ->
  (canonicalize_params sha256_hexdigest m).1 =
    (canonicalize_params sha256_hexdigest m').1 /\
  (canonicalize_params sha256_hexdigest m).2 =
    (canonicalize_params sha256_hexdigest m').2.
Proof.
  intros Hwf Hp. unfold canonicalize_params. cbn [fst snd].
  destruct (dumps_permute_keys (JDict m) (JDict m')) as [_ ->];
    [by constructor|done|done].
Qed.

Lemma canonicalize_params_key_order_witness :
  well_formed (JDict nested_1) /\
  permute_items nested_1 nested_2 /\
  (canonicalize_params (fun s => s) nested_1).1 =
    (canonicalize_params (fun s => s) nested_2).1 /\
  (canonicalize_params (fun s => s) nested_1).2 =
    (canonicalize_params (fun s => s) nested_2).2.
Proof.
  assert (well_formed (JDict nested_1)) as Hwf.
  { simpl. repeat split; apply (bool_decide_unpack _); vm_compute;
      reflexivity. }
  assert (permute_items nested_1 nested_2) as Hp.
  { eapply pi_trans; [apply pi_swap|].
    apply pi_skip; [constructor|].
    apply pi_skip; [|constructor].
    constructor. apply pi_swap. }
  split; [exact Hwf|]. split; [exact Hp|].
  exact (canonicalize_params_key_order (fun s => s) nested_1 nested_2 Hwf Hp).
Defined.

(** [tests/test_utils.py], flat case: the canonical string itself. *)
Example test_canonicalize_params_determinism :
  let p1 := [(py "a", JInt 1); (py "b", JInt 2)] in
  let p2 := [(py "b", JInt 2); (py "a", JInt 1)] in
  dumps (JDict p1) = dumps (JDict p2) /\
  dumps (JDict p1) =
    "{" ++ dquote ++ "a" ++ dquote ++ ":1," ++ dquote ++ "b" ++ dquote
        ++ ":2}".
Proof. split; vm_compute; reflexivity. Qed.

End utils_spec.

(** ** Conditional updates on a table with a primary key *)

Module store_facts.
Import models session.

Lemma get_Some rows run_id r :
  get rows run_id = Some r -> In r rows /\ id r = run_id.
Proof.
  intros H. apply find_some in H as [? ?]. split; [done|].
  by apply N.eqb_eq.
Qed.

Lemma get_None rows run_id :
  get rows run_id = None -> forall x, In x rows -> id x <> run_id.
Proof.
  intros H x Hx Heq. eapply find_none in H; [|exact Hx].
  apply N.eqb_neq in H. done.
Qed.

Lemma not_in_ids_get rows run_id :
  run_id ∉ map id rows -> get rows run_id = None.
Proof.
  induction rows as [|x rows IH]; simpl; [done|].
  intros Hn. destruct (N.eqb_spec (id x) run_id) as [Heq|Hne].
  - exfalso. apply Hn. rewrite Heq. left.
  - apply IH. intros Hin. apply Hn. by right.
Qed.

Lemma matches_ne stmt now x :
  id x <> target stmt -> matches stmt now x = false.
Proof. intros H. unfold matches. by rewrite (proj2 (N.eqb_neq _ _) H). Qed.

Lemma matches_eq stmt now x :
  id x = target stmt -> matches stmt now x = guard stmt now x.
Proof. intros H. unfold matches. by rewrite (proj2 (N.eqb_eq _ _) H). Qed.

Lemma apply_update_cons stmt now x rows :
  apply_update stmt now (x :: rows) =
  ((if matches stmt now x then assign stmt now x else x)
     :: (apply_update stmt now rows).1,
   ((if matches stmt now x then [id x] else [])
     ++ (apply_update stmt now rows).2)%list).
Proof. unfold apply_update. simpl. by destruct (matches stmt now x). Qed.

Lemma apply_update_absent stmt now rows :
  get rows (target stmt) = None -> apply_update stmt now rows = (rows, []).
Proof.
  induction rows as [|x rows IH]; [done|].
  unfold get. simpl.
  destruct (N.eqb_spec (id x) (target stmt)) as [Heq|Hne]; [done|].
  intros H. rewrite apply_update_cons, (matches_ne _ _ _ Hne), (IH H). done.
Qed.

Lemma update_row_absent run_id f rows :
  get rows run_id = None -> update_row run_id f rows = rows.
Proof.
  unfold update_row, get.
  induction rows as [|x rows IH]; simpl; [done|].
  destruct (N.eqb_spec (id x) run_id) as [Heq|Hne]; [done|].
  intros H. by rewrite IH.
Qed.

(** On a table with a primary key the statement touches the one row with
    its target id, if the guard holds of it, and returns that id. *)
Lemma apply_update_unique stmt now rows r :
  primary_key rows ->
  get rows (target stmt) = Some r ->
  apply_update stmt now rows =
  if guard stmt now r
  then (update_row (target stmt) (assign stmt now) rows, [target stmt])
  else (rows, []).
Proof.
  unfold primary_key.
  induction rows as [|x rows IH]; [done|].
  intros Hnd. simpl in Hnd. apply NoDup_cons in Hnd as [Hx Hnd].
  unfold get. simpl. rewrite apply_update_cons.
  destruct (N.eqb_spec (id x) (target stmt)) as [Heq|Hne].
  - intros [= ->]. rewrite Heq in Hx. apply not_in_ids_get in Hx.
    rewrite (matches_eq _ _ _ Heq), (apply_update_absent _ _ _ Hx).
    unfold update_row. simpl.
    fold (update_row (target stmt) (assign stmt now) rows).
    rewrite (update_row_absent _ _ _ Hx), Heq.
    by destruct (guard stmt now r).
  - intros Hg. rewrite (matches_ne _ _ _ Hne), (IH Hnd Hg).
    unfold update_row. simpl. by destruct (guard stmt now r).
Qed.

Lemma get_update_row_eq run_id f rows r :
  get rows run_id = Some r -> id (f r) = run_id ->
  get (update_row run_id f rows) run_id = Some (f r).
Proof.
  unfold get, update_row.
  induction rows as [|x rows IH]; simpl; [done|].
  destruct (N.eqb_spec (id x) run_id) as [Heq|Hne].
  - intros [= ->] Hf. by rewrite (proj2 (N.eqb_eq _ _) Hf).
  - intros H Hf. rewrite (proj2 (N.eqb_neq _ _) Hne). by apply IH.
Qed.

Lemma get_update_row_ne run_id run_id' f rows :
  run_id' <> run_id -> (forall x, id (f x) = id x) ->
  get (update_row run_id f rows) run_id' = get rows run_id'.
Proof.
  intros Hne Hf. unfold get, update_row.
  induction rows as [|x rows IH]; simpl; [done|].
  destruct (N.eqb_spec (id x) run_id) as [Heq|Hneq].
  - rewrite Hf, Heq. rewrite (proj2 (N.eqb_neq run_id run_id')); [done|].
    congruence.
  - by rewrite IH.
Qed.

Lemma ids_update_row run_id f rows :
  (forall x, id (f x) = id x) ->
  map id (update_row run_id f rows) = map id rows.
Proof.
  intros Hf. unfold update_row. rewrite map_map. apply map_ext.
  intros x. by destruct (id x =? run_id)%N.
Qed.

End store_facts.

(** ** The lease operations *)

Module loader_spec.
Import models session loader store_facts scenarios.

Lemma acquire_lease_unique rows run_id worker_id now r :
  primary_key rows ->
  get rows run_id = Some r ->
  acquire_lease run_id worker_id now None rows =
  if acquire_guard now r
  then (Returns true, update_row run_id (acquire_values worker_id now) rows)
  else (Returns false, rows).
Proof.
  intros Hpk Hget. unfold acquire_lease, execute.
  rewrite (apply_update_unique (acquire_stmt run_id worker_id) now rows r);
    try done.
  simpl. by destruct (acquire_guard now r).
Qed.

Lemma acquire_lease_absent rows run_id worker_id now :
  get rows run_id = None ->
  acquire_lease run_id worker_id now None rows = (Returns false, rows).
Proof.
  intros Hget. unfold acquire_lease, execute.
  by rewrite (apply_update_absent (acquire_stmt run_id worker_id) now rows).
Qed.

Lemma renew_lease_unique rows run_id worker_id now r :
  primary_key rows ->
  get rows run_id = Some r ->
  renew_lease run_id worker_id now None rows =
  if renew_guard worker_id now r
  then (Returns true, update_row run_id (renew_values now) rows)
  else (Returns false, rows).
Proof.
  intros Hpk Hget. unfold renew_lease, execute.
  rewrite (apply_update_unique (renew_stmt run_id worker_id) now rows r);
    try done.
  simpl. by destruct (renew_guard worker_id now r).
Qed.

Lemma renew_lease_absent rows run_id worker_id now :
  get rows run_id = None ->
  renew_lease run_id worker_id now None rows = (Returns false, rows).
Proof.
  intros Hget. unfold renew_lease, execute.
  by rewrite (apply_update_absent (renew_stmt run_id worker_id) now rows).
Qed.

Lemma acquire_guard_spec now r :
  acquire_guard now r = true <->
  status r = PENDING \/
  (status r = RUNNING /\ exists t, lease_expires_at r = Some t /\ t < now).
Proof.
  unfold acquire_guard. destruct (status r), (lease_expires_at r) as [t|];
    split; try done; try (by left); try (intros [?|[? ?]]; done).
  - intros H. right. split; [done|]. exists t. split; [done|].
    by apply Z.ltb_lt.
  - intros [?|[_ (t' & [= <-] & Hlt)]]; [done|]. by apply Z.ltb_lt.
  - intros [?|[_ (t' & ? & _)]]; done.
Qed.

(** C2. For a run row [r] (the row of [run_id] in a table with its primary
    key), when the store does not fail, [acquire_lease(run_id, worker_id)]
    returns true if and only if [status = PENDING], or [status = RUNNING]
    with [lease_expires_at < now]; when it returns true the row afterwards
    has [status = RUNNING], [lease_owner = worker_id],
    [lease_expires_at = now + 60 s], [started_at] as it was if set and
    [now] otherwise, [attempt_count] one higher, every other column and
    every other row as before; when it returns false the table is
    unchanged. *)
Theorem acquire_lease_conditional_update rows run_id worker_id now r :
  primary_key rows ->
  get rows run_id = Some r ->
  exists b rows',
    acquire_lease run_id worker_id now None rows = (Returns b, rows') /\
    (b = true <->
       status r = PENDING \/
       (status r = RUNNING /\
        exists t, lease_expires_at r = Some t /\ t < now)) /\
    (b = true ->
       get rows' run_id =
         Some {| id := id r;
                 status := RUNNING;
                 parameters := parameters r;
                 payload_hash := payload_hash r;
                 created_at := created_at r;
                 started_at :=
                   match started_at r with
                   | Some t => Some t
                   | None => Some now
                   end;
                 finished_at := finished_at r;
                 attempt_count := attempt_count r + 1;
                 lease_owner := Some worker_id;
                 lease_expires_at := Some (now + timedelta 60);
                 result_ref := result_ref r;
                 last_error := last_error r |} /\
       forall other, other <> run_id -> get rows' other = get rows other) /\
    (b = false -> rows' = rows).
Proof.
  intros Hpk Hget. rewrite (acquire_lease_unique _ _ _ _ r Hpk Hget).
  pose proof (acquire_guard_spec now r) as Hspec.
  destruct (get_Some _ _ _ Hget) as [_ Hid].
  destruct (acquire_guard now r) eqn:Hg.
  - eexists true, _. split; [done|]. split; [done|]. split; [|done].
    intros _. split.
    + rewrite (get_update_row_eq _ _ _ r Hget); [|done].
      unfold acquire_values, coalesce. by destruct (started_at r).
    + intros other Hne. by apply get_update_row_ne.
  - eexists false, _. split; [done|]. split; [|done].
    rewrite <- Hspec. done.
Qed.

Lemma acquire_lease_conditional_update_witness :
  primary_key [fresh_run 1%N 0] /\
  get [fresh_run 1%N 0] 1%N = Some (fresh_run 1%N 0) /\
  exists b rows',
    acquire_lease 1%N "host-a-101" 5 None [fresh_run 1%N 0]
      = (Returns b, rows') /\
    (b = true <->
       status (fresh_run 1%N 0) = PENDING \/
       (status (fresh_run 1%N 0) = RUNNING /\
        exists t, lease_expires_at (fresh_run 1%N 0) = Some t /\ t < 5)) /\
    (b = true ->
       get rows' 1%N =
         Some {| id := 1%N;
                 status := RUNNING;
                 parameters := parameters (fresh_run 1%N 0);
                 payload_hash := "h";
                 created_at := 0;
                 started_at := Some 5;
                 finished_at := None;
                 attempt_count := 0 + 1;
                 lease_owner := Some "host-a-101";
                 lease_expires_at := Some (5 + timedelta 60);
                 result_ref := None;
                 last_error := None |} /\
       forall other, other <> 1%N ->
         get rows' other = get [fresh_run 1%N 0] other) /\
    (b = false -> rows' = [fresh_run 1%N 0]).
Proof.
  assert (primary_key [fresh_run 1%N 0]) as Hpk.
  { apply (bool_decide_unpack _). vm_compute. reflexivity. }
  assert (get [fresh_run 1%N 0] 1%N = Some (fresh_run 1%N 0)) as Hget
    by reflexivity.
  split; [exact Hpk|]. split; [exact Hget|].
  exact (acquire_lease_conditional_update
           [fresh_run 1%N 0] 1%N "host-a-101" 5 (fresh_run 1%N 0) Hpk Hget).
Defined.

(** C5, as the code has it. For a run row [r], when the store does not
    fail, [renew_lease(run_id, worker_id)] returns true if and only if
    [lease_owner = worker_id], whatever the status; when it returns true
    the only column changed is [lease_expires_at], set to [now + 60 s], and
    every other row is as before; when it returns false the table is
    unchanged. *)
Theorem renew_lease_conditional_update rows run_id worker_id now r :
  primary_key rows ->
  get rows run_id = Some r ->
  exists b rows',
    renew_lease run_id worker_id now None rows = (Returns b, rows') /\
    (b = true <-> lease_owner r = Some worker_id) /\
    (b = true ->
       get rows' run_id =
         Some {| id := id r;
                 status := status r;
                 parameters := parameters r;
                 payload_hash := payload_hash r;
                 created_at := created_at r;
                 started_at := started_at r;
                 finished_at := finished_at r;
                 attempt_count := attempt_count r;
                 lease_owner := lease_owner r;
                 lease_expires_at := Some (now + timedelta 60);
                 result_ref := result_ref r;
                 last_error := last_error r |} /\
       forall other, other <> run_id -> get rows' other = get rows other) /\
    (b = false -> rows' = rows).
Proof.
  intros Hpk Hget. rewrite (renew_lease_unique _ _ _ _ r Hpk Hget).
  destruct (get_Some _ _ _ Hget) as [_ Hid].
  unfold renew_guard. case_bool_decide as Hown.
  - eexists true, _. split; [done|]. split; [done|]. split; [|done].
    intros _. split.
    + by rewrite (get_update_row_eq _ _ _ r Hget).
    + intros other Hne. by apply get_update_row_ne.
  - eexists false, _. split; [done|]. split; [|done].
    split; [done|]. intros ?. done.
Qed.

(** [completed_by_B] is the run after worker B has executed it. *)
Lemma run_completed_by_B :
  (main.execute_run worker_B 1%N [fresh_run 1%N 0]).2 = [completed_by_B].
Proof. vm_compute. reflexivity. Qed.

Lemma primary_key_singleton r : primary_key [r].
Proof. unfold primary_key. simpl. apply NoDup_singleton. Qed.

Lemma renew_lease_conditional_update_witness :
  primary_key [completed_by_B] /\
  get [completed_by_B] 1%N = Some completed_by_B /\
  exists b rows',
    renew_lease 1%N "host-b-202" (timedelta 110) None [completed_by_B]
      = (Returns b, rows') /\
    (b = true <-> lease_owner completed_by_B = Some "host-b-202") /\
    (b = true ->
       get rows' 1%N =
         Some {| id := 1%N;
                 status := SUCCEEDED;
                 parameters := parameters completed_by_B;
                 payload_hash := "h";
                 created_at := 0;
                 started_at := Some (timedelta 90);
                 finished_at := Some (timedelta 100);
                 attempt_count := 1;
                 lease_owner := Some "host-b-202";
                 lease_expires_at := Some (timedelta 110 + timedelta 60);
                 result_ref := Some (main.result_path 1%N);
                 last_error := None |} /\
       forall other, other <> 1%N ->
         get rows' other = get [completed_by_B] other) /\
    (b = false -> rows' = [completed_by_B]).
Proof.
  split; [apply primary_key_singleton|]. split; [reflexivity|].
  exact (renew_lease_conditional_update [completed_by_B] 1%N "host-b-202"
           (timedelta 110) completed_by_B
           (primary_key_singleton completed_by_B) eq_refl).
Defined.

(** C5, as the spec words it, fails: after worker B has completed the run
    (status SUCCEEDED, [lease_owner] still B), B's [renew_lease] returns
    true. *)
Lemma renew_lease_ignores_status :
  primary_key [completed_by_B] /\
  get [completed_by_B] 1%N = Some completed_by_B /\
  ~ ((renew_lease 1%N "host-b-202" (timedelta 110) None [completed_by_B]).1
       = Returns true <->
     lease_owner completed_by_B = Some "host-b-202" /\
     status completed_by_B = RUNNING).
Proof.
  split; [apply primary_key_singleton|]. split; [reflexivity|].
  intros [H _].
  assert ((renew_lease 1%N "host-b-202" (timedelta 110) None
             [completed_by_B]).1 = Returns true) as Hr
    by (vm_compute; reflexivity).
  destruct (H Hr) as [_ Hs]. discriminate Hs.
Qed.

Lemma apply_update_no_match stmt now rows :
  (forall r, In r rows -> matches stmt now r = false) ->
  apply_update stmt now rows = (rows, []).
Proof.
  induction rows as [|x rows IH]; [done|].
  intros H. rewrite apply_update_cons, (H x), IH; [done| |by left].
  intros r Hr. apply H. by right.
Qed.

(** C10. Whatever exception the store raises, [renew_lease] catches it and
    returns false, with nothing committed, and no call of [renew_lease]
    raises; [acquire_lease] raises the store's exception again.  So a
    heartbeat iteration that is not stopped leaves the loop through the
    same branch, after the same single call and with the same table, when
    the store fails at the renewal and when the lease is lost (no row of
    the run is owned by the worker); later iterations do not happen. *)
Theorem renew_lease_absorbs_store_failure
    run_id worker_id now e rows (k : main.Tick) later :
  main.stop_before_sleep k = false ->
  main.stop_after_sleep k = false ->
  renew_lease run_id worker_id now (Some e) rows = (Returns false, rows) /\
  (forall failure, exists b rows',
     renew_lease run_id worker_id now failure rows = (Returns b, rows')) /\
  acquire_lease run_id worker_id now (Some e) rows = (Raises e, rows) /\
  (main.tick_failure k = Some e ->
   main.heartbeat_run run_id worker_id (k :: later) rows =
     (main.HeartbeatFailed, 1%nat, main.concurrent k rows)) /\
  (main.tick_failure k = None ->
   (forall r, In r (main.concurrent k rows) -> id r = run_id ->
      lease_owner r <> Some worker_id) ->
   main.heartbeat_run run_id worker_id (k :: later) rows =
     (main.HeartbeatFailed, 1%nat, main.concurrent k rows)).
Proof.
  intros Hs1 Hs2. split; [done|]. split; [|split; [done|split]].
  - intros [x|]; [by eexists _, _|].
    unfold renew_lease, execute.
    destruct (apply_update _ _ _) as [rows' returned].
    destruct returned as [|u [|v returned]]; by eexists _, _.
  - intros Hf. simpl. by rewrite Hs1, Hs2, Hf.
  - intros Hf Hlost. simpl. rewrite Hs1, Hs2, Hf.
    unfold renew_lease, execute.
    rewrite apply_update_no_match; [done|].
    intros r Hr. unfold matches. simpl.
    destruct (N.eqb_spec (id r) run_id) as [Heq|]; [|done].
    unfold renew_guard. simpl. apply bool_decide_eq_false. by apply Hlost.
Qed.

Lemma renew_lease_absorbs_store_failure_witness :
  main.stop_before_sleep outage_tick = false /\
  main.stop_after_sleep outage_tick = false /\
  renew_lease 1%N "host-a-101" (timedelta 20)
    (Some (OperationalError "connection refused")) [fresh_run 1%N 0]
    = (Returns false, [fresh_run 1%N 0]) /\
  acquire_lease 1%N "host-a-101" (timedelta 20)
    (Some (OperationalError "connection refused")) [fresh_run 1%N 0]
    = (Raises (OperationalError "connection refused"), [fresh_run 1%N 0]).
Proof.
  split; [reflexivity|]. split; [reflexivity|].
  destruct (renew_lease_absorbs_store_failure 1%N "host-a-101" (timedelta 20)
              (OperationalError "connection refused") [fresh_run 1%N 0]
              outage_tick [] eq_refl eq_refl) as (H1 & _ & H2 & _).
  split; [exact H1|exact H2].
Defined.

End loader_spec.

(** ** Interleavings of the update operations on one run *)

Module protocol_spec.
Import models session loader main protocol store_facts loader_spec scenarios.

Lemma assign_stmt_of_id run_id o t x :
  id (assign (stmt_of run_id o) t x) = id x.
Proof. by destruct o. Qed.

Lemma target_stmt_of run_id o : target (stmt_of run_id o) = run_id.
Proof. by destruct o. Qed.

Lemma run_stmt_unique failure stmt now rows r :
  primary_key rows ->
  get rows (target stmt) = Some r ->
  run_stmt failure stmt now rows =
  match failure with
  | Some _ => rows
  | None =>
      if guard stmt now r
      then update_row (target stmt) (assign stmt now) rows
      else rows
  end.
Proof.
  intros Hpk Hget. unfold run_stmt, execute. destruct failure; [done|].
  rewrite (apply_update_unique stmt now rows r); try done.
  by destruct (guard stmt now r).
Qed.

Lemma run_stmt_absent failure stmt now rows :
  get rows (target stmt) = None -> run_stmt failure stmt now rows = rows.
Proof.
  intros Hget. unfold run_stmt, execute. destruct failure; [done|].
  by rewrite apply_update_absent.
Qed.

(** On a table with a primary key every call is its statement, run in a
    transaction of its own. *)
Lemma perform_run_stmt run_id c rows :
  primary_key rows ->
  perform run_id c rows =
  run_stmt (call_failure c) (stmt_of run_id (op c)) (call_now c) rows.
Proof.
  intros Hpk. unfold perform.
  destruct (op c) as [w|w|w path|error]; try done.
  - simpl. unfold run_stmt, acquire_lease, execute.
    destruct (call_failure c); [done|].
    destruct (get rows run_id) as [r|] eqn:Hget.
    + rewrite (apply_update_unique (acquire_stmt run_id w) _ rows r);
        try done.
      by destruct (guard _ _ r).
    + by rewrite (apply_update_absent (acquire_stmt run_id w)).
  - simpl. unfold run_stmt, renew_lease, execute.
    destruct (call_failure c); [done|].
    destruct (get rows run_id) as [r|] eqn:Hget.
    + rewrite (apply_update_unique (renew_stmt run_id w) _ rows r);
        try done.
      by destruct (guard _ _ r).
    + by rewrite (apply_update_absent (renew_stmt run_id w)).
Qed.

Lemma primary_key_perform run_id c rows :
  primary_key rows -> primary_key (perform run_id c rows).
Proof.
  intros Hpk. rewrite perform_run_stmt; [|done].
  destruct (get rows run_id) as [r|] eqn:Hget.
  - rewrite (run_stmt_unique _ _ _ _ r); try done;
      [|by rewrite target_stmt_of].
    destruct (call_failure c); [done|].
    destruct (guard _ _ r); [|done].
    unfold primary_key. rewrite ids_update_row; [done|].
    intros x. apply assign_stmt_of_id.
  - rewrite run_stmt_absent; [done|]. by rewrite target_stmt_of.
Qed.

(** Inside the window no call unlocks the run. *)
Lemma locked_perform T run_id c rows :
  primary_key rows ->
  locked T run_id rows ->
  T <= call_now c ->
  locked T run_id (perform run_id c rows).
Proof.
  intros Hpk Hl Hc. rewrite perform_run_stmt; [|done].
  destruct (get rows run_id) as [r|] eqn:Hget.
  2:{ rewrite run_stmt_absent; [done|]. by rewrite target_stmt_of. }
  rewrite (run_stmt_unique _ _ _ _ r); try done; [|by rewrite target_stmt_of].
  destruct (call_failure c); [done|].
  destruct (guard _ _ r) eqn:Hg; [|done].
  rewrite target_stmt_of.
  intros r' now Hget' Hnow.
  rewrite (get_update_row_eq _ _ _ r Hget) in Hget'.
  2:{ rewrite assign_stmt_of_id. by apply get_Some in Hget as [_ ?]. }
  injection Hget' as <-.
  pose proof (Hl r (T + timedelta LEASE_DURATION_SECONDS) Hget
                ltac:(lia)) as Hr.
  unfold acquire_guard in *.
  destruct (op c) as [w|w|w path|error]; simpl; try done.
  - apply Z.ltb_ge. lia.
  - destruct (status r); try done. apply Z.ltb_ge. lia.
Qed.

(** A locked run is acquired by no call inside the window. *)
Lemma locked_acquires T run_id c rows :
  primary_key rows ->
  locked T run_id rows ->
  call_now c <= T + timedelta LEASE_DURATION_SECONDS ->
  acquires run_id c rows = false.
Proof.
  intros Hpk Hl Hc. unfold acquires.
  destruct (op c) as [w|w|w path|error]; try done.
  destruct (call_failure c); [done|].
  destruct (get rows run_id) as [r|] eqn:Hget.
  - rewrite (acquire_lease_unique _ _ _ _ r); try done.
    by rewrite (Hl r (call_now c) Hget Hc).
  - by rewrite acquire_lease_absent.
Qed.

(** A successful acquisition locks the run for the window it opens. *)
Lemma acquires_locks T run_id c rows :
  primary_key rows ->
  acquires run_id c rows = true ->
  T <= call_now c ->
  locked T run_id (perform run_id c rows).
Proof.
  intros Hpk Ha Hc. unfold acquires, perform in *.
  destruct (op c) as [w|w|w path|error]; try done.
  destruct (call_failure c); [done|].
  destruct (get rows run_id) as [r|] eqn:Hget.
  2:{ by rewrite acquire_lease_absent in Ha. }
  rewrite (acquire_lease_unique _ _ _ _ r) in *; try done.
  destruct (acquire_guard (call_now c) r); [|done]. simpl.
  intros r' now Hget' Hnow.
  rewrite (get_update_row_eq _ _ _ r Hget) in Hget'.
  2:{ by apply get_Some in Hget as [_ ?]. }
  injection Hget' as <-. unfold acquire_guard. simpl.
  apply Z.ltb_ge. lia.
Qed.

Lemma locked_acquisitions T run_id calls : forall rows,
  primary_key rows ->
  locked T run_id rows ->
  (forall c, In c calls ->
     T <= call_now c <= T + timedelta LEASE_DURATION_SECONDS) ->
  acquisitions run_id calls rows = O.
Proof.
  induction calls as [|c calls IH]; intros rows Hpk Hl Hw; [done|].
  simpl. destruct (Hw c ltac:(by left)) as [H1 H2].
  rewrite (locked_acquires T); try done. simpl.
  apply IH.
  - by apply primary_key_perform.
  - by apply locked_perform.
  - intros c' Hc'. apply Hw. by right.
Qed.

(** C1. For every run id and every finite sequence of calls on the run, each
    atomic (the [acquire_lease] calls of any number of workers, interleaved
    in any order with renewals and finalizations), all at times within one
    lease window [[T, T + 60 s]], at most one [acquire_lease] returns true.
    The table is any table with its primary key. *)
Theorem at_most_one_acquisition T run_id calls : forall rows,
  primary_key rows ->
  (forall c, In c calls ->
     T <= call_now c <= T + timedelta LEASE_DURATION_SECONDS) ->
  (acquisitions run_id calls rows <= 1)%nat.
Proof.
  induction calls as [|c calls IH]; intros rows Hpk Hw; [simpl; lia|].
  simpl. destruct (Hw c ltac:(by left)) as [H1 H2].
  destruct (acquires run_id c rows) eqn:Ha.
  - rewrite (locked_acquisitions T); [lia| | |].
    + by apply primary_key_perform.
    + by apply acquires_locks.
    + intros c' Hc'. apply Hw. by right.
  - simpl. apply IH.
    + by apply primary_key_perform.
    + intros c' Hc'. apply Hw. by right.
Qed.

End protocol_spec.

(** ** The worker executor *)

Module main_spec.
Import models session loader main protocol store_facts loader_spec
  protocol_spec scenarios.

(** The calls of a worker and a competitor on a fresh run: the second
    acquisition, inside the window of the first, is refused. *)
Lemma at_most_one_acquisition_witness :
  let calls :=
    [ {| op := Acquire "host-a-101"; call_now := 0; call_failure := None |};
      {| op := Acquire "host-b-202"; call_now := timedelta 10;
         call_failure := None |};
      {| op := Renew "host-a-101"; call_now := timedelta 20;
         call_failure := None |};
      {| op := Acquire "host-b-202"; call_now := timedelta 60;
         call_failure := None |} ] in
  primary_key [fresh_run 1%N 0] /\
  (forall c, In c calls ->
     0 <= call_now c <= 0 + timedelta LEASE_DURATION_SECONDS) /\
  (acquisitions 1%N calls [fresh_run 1%N 0%Z] <= 1)%nat.
Proof.
  intros calls.
  assert (forall c, In c calls ->
            0 <= call_now c <= 0 + timedelta LEASE_DURATION_SECONDS) as Hw.
  { intros c [<-|[<-|[<-|[<-|[]]]]]; vm_compute; split; discriminate. }
  split; [apply primary_key_singleton|]. split; [exact Hw|].
  exact (at_most_one_acquisition 0 1%N calls [fresh_run 1%N 0]
           (primary_key_singleton _) Hw).
Defined.

(** Past the window the run is acquired again: the bound of one holds per
    window, not per run. *)
Example reacquisition_after_expiry :
  acquisitions 1%N
    [ {| op := Acquire "host-a-101"; call_now := 0; call_failure := None |};
      {| op := Acquire "host-b-202"; call_now := timedelta 90;
         call_failure := None |} ]
    [fresh_run 1%N 0] = 2%nat.
Proof. vm_compute. reflexivity. Qed.

(** X23. Lease acquisition and renewal leave the status and [finished_at]
    of a terminal run as they are. *)
Lemma lease_calls_keep_terminal run_id c rows r :
  primary_key rows ->
  get rows run_id = Some r ->
  terminal (status r) = true ->
  (exists w, op c = Acquire w \/ op c = Renew w) ->
  exists r',
    get (perform run_id c rows) run_id = Some r' /\
    status r' = status r /\ finished_at r' = finished_at r.
Proof.
  intros Hpk Hget Ht (w & Hop). rewrite perform_run_stmt; [|done].
  rewrite (run_stmt_unique _ _ _ _ r); try done; [|by rewrite target_stmt_of].
  destruct (call_failure c); [by exists r|].
  destruct (guard _ _ r) eqn:Hg; [|by exists r].
  rewrite target_stmt_of.
  rewrite (get_update_row_eq _ _ _ r Hget).
  2:{ rewrite assign_stmt_of_id. by apply get_Some in Hget as [_ ?]. }
  eexists. split; [done|].
  destruct Hop as [Hop|Hop]; rewrite Hop in *; simpl in *; [|done].
  unfold acquire_guard in Hg. by destruct (status r).
Qed.

(** X22. Step 7 in general: when the model raises, [execute_run] ends with
    the failure columns written on the row of the run as the worker finds
    it, whoever holds the lease by then. *)
Lemma execute_run_runner_failure e run_id rows r x r1 :
  primary_key rows ->
  get rows run_id = Some r ->
  acquire_guard (acquire_now e) r = true ->
  acquire_failure e = None ->
  fetch_failure e = None ->
  runner_run e (parameters r) = Raises x ->
  failure_failure e = None ->
  primary_key
    (while_running e
       (update_row run_id (acquire_values (worker_id e) (acquire_now e))
          rows)) ->
  get (while_running e
         (update_row run_id (acquire_values (worker_id e) (acquire_now e))
            rows)) run_id = Some r1 ->
  execute_run e run_id rows =
    (Returns tt,
     update_row run_id (failure_values (str x) (failure_now e))
       (while_running e
          (update_row run_id (acquire_values (worker_id e) (acquire_now e))
             rows))).
Proof.
  intros Hpk Hget Hg Ha Hf Hr Hff Hpk1 Hget1.
  unfold execute_run. rewrite Ha.
  rewrite (acquire_lease_unique _ _ _ _ r Hpk Hget), Hg.
  unfold attempt. rewrite Hf.
  rewrite (get_update_row_eq _ _ _ r Hget).
  2:{ by apply get_Some in Hget as [_ ?]. }
  simpl. rewrite Hr, Hff. unfold execute.
  by rewrite (apply_update_unique (failure_stmt run_id (str x)) _ _ r1).
Qed.

(** C3, the code at the failing input. Worker A acquires the run at 0 s; its
    heartbeat stops at a store outage and its lease runs out; worker B
    acquires the run at 90 s and is executing it when A's model raises at
    200 s.  The row A finds is RUNNING under B's lease; A's step 7 writes
    FAILED, [last_error] and [finished_at] over it all the same. *)
Theorem failure_write_ignores_lease :
  let acquired := (acquire_lease 1%N "host-a-101" 0 None [fresh_run 1%N 0]).2 in
  exists r r',
    B_takes_over acquired = [r] /\
    status r = RUNNING /\
    lease_owner r = Some "host-b-202" /\
    lease_expires_at r = Some (timedelta 150) /\
    execute_run (worker_A B_takes_over) 1%N [fresh_run 1%N 0]
      = (Returns tt, [r']) /\
    status r' = FAILED /\
    lease_owner r' = Some "host-b-202" /\
    finished_at r' = Some (timedelta 200) /\
    last_error r' = Some "Simulated random failure in MockModelRunner".
Proof. intros acquired. eexists _, _. vm_compute. repeat split. Qed.

(** C4, the code at the failing input. As above, and B completes the run at
    100 s: the row is SUCCEEDED with [finished_at] = 100 s when A's model
    raises at 200 s, and A's step 7 turns it into FAILED with
    [finished_at] = 200 s. *)
Theorem terminal_run_overwritten :
  let acquired := (acquire_lease 1%N "host-a-101" 0 None [fresh_run 1%N 0]).2 in
  exists r r',
    B_completes acquired = [r] /\
    status r = SUCCEEDED /\
    finished_at r = Some (timedelta 100) /\
    execute_run (worker_A B_completes) 1%N [fresh_run 1%N 0]
      = (Returns tt, [r']) /\
    status r' = FAILED /\
    finished_at r' = Some (timedelta 200).
Proof. intros acquired. eexists _, _. vm_compute. repeat split. Qed.

(** Step 6 is guarded by [lease_owner] alone: issued by the recorded owner
    it rewrites a terminal row too. *)
Example success_write_on_terminal_run :
  exists r',
    perform 1%N
      {| op := FinalizeSuccess "host-b-202" (result_path 1%N);
         call_now := timedelta 300; call_failure := None |}
      (execute_run (worker_A B_completes) 1%N [fresh_run 1%N 0]).2 = [r'] /\
    status r' = SUCCEEDED /\ finished_at r' = Some (timedelta 300).
Proof. eexists. vm_compute. repeat split. Qed.

End main_spec.

(** ** Admission *)

Module runs_spec.
Import utils models session runs store_facts scenarios.

Section admission.
Variable sha256_hexdigest : string -> string.

  (** C8. For every [POST /runs] request with a valid body that carries an
      [Idempotency-Key] header (a non-empty one: the code takes an empty
      header for an absent one) whose key is bound to a run of the store,
      when the key lookup does not fail, [create_run] returns that run
      with status 200 whatever the parameters of the request are: nothing
      relates the stored [payload_hash] to the request, the store is left
      as it is and nothing is enqueued. *)
Theorem bound_key_wins req sch db parameters key run_id run :
    validate req = inr parameters ->
    idempotency_key_header req = Some key ->
    key <> EmptyString ->
    lookup_failure sch = None ->
    idempotency_keys db !! key = Some run_id ->
    get (model_runs db) run_id = Some run ->
    create_run sha256_hexdigest req sch db =
      ((RunBody (_serialize_run run), 200), db, []).
  Proof.
    intros Hv Hh Hne Hf Hk Hr. unfold runs.create_run.
    rewrite Hv, Hh. simpl.
    destruct key as [|a key]; [done|]. simpl.
    rewrite Hf, Hk. unfold _inspect_run. by rewrite Hr.
  Qed.

  (** C6, as the code has it. When a request with an idempotency key finds
      the key unbound and no active duplicate, and by the time of its commit
      another session has bound the key, the unique constraint fails the
      commit: [create_run] rolls its own insert back and answers 409
      [Conflict during creation]; it does not read the key again, and the
      store is what the other sessions committed. *)
Theorem binding_conflict_is_409 req sch db parameters key :
    validate req = inr parameters ->
    truthy (idempotency_key_header req) = Some key ->
    lookup_failure sch = None ->
    idempotency_keys db !! key = None ->
    dedup_failure sch = None ->
    select_active_duplicate
      (canonicalize_params sha256_hexdigest parameters).2
      (model_runs (before_dedup sch db)) = None ->
    new_id sch
      ∉ map id (model_runs (before_insert sch (before_dedup sch db))) ->
    is_Some
      (idempotency_keys (before_insert sch (before_dedup sch db)) !! key) ->
    create_run sha256_hexdigest req sch db =
      ((ErrorBody "Conflict during creation", 409),
       before_insert sch (before_dedup sch db), []).
  Proof.
    intros Hv Hh Hf Hk Hd Hs Hid [winner Hb]. unfold runs.create_run.
    rewrite Hv, Hh. simpl. rewrite Hf, Hk.
    unfold create_from_dedup. rewrite Hd. simpl in Hs. rewrite Hs.
    unfold insert_and_commit. simpl.
    rewrite bool_decide_eq_false_2; [|done]. by rewrite Hb.
  Qed.

  (** C7, as the code has it. Without an idempotency key, when the store
      holds runs with the request's [payload_hash] and status PENDING or
      RUNNING, [create_run] answers 200 with the first of them in the order
      in which the store yields its rows; [created_at] plays no part. *)
Theorem implicit_dedup_returns_first_match
      req sch db parameters before r after :
    validate req = inr parameters ->
    truthy (idempotency_key_header req) = None ->
    dedup_failure sch = None ->
    model_runs (before_dedup sch db) = (before ++ r :: after)%list ->
    payload_hash r = (canonicalize_params sha256_hexdigest parameters).2 ->
    active r = true ->
    (forall x, In x before ->
       payload_hash x = (canonicalize_params sha256_hexdigest parameters).2 ->
       active x = false) ->
    select_active_duplicate
      (canonicalize_params sha256_hexdigest parameters).2
      (model_runs (before_dedup sch db)) = Some r /\
    create_run sha256_hexdigest req sch db =
      ((RunBody (_serialize_run r), 200), before_dedup sch db, []).
  Proof.
    intros Hv Hh Hd Hrows Hp Ha Hbefore.
    assert (select_active_duplicate
              (canonicalize_params sha256_hexdigest parameters).2
              (model_runs (before_dedup sch db)) = Some r) as Hsel.
    { rewrite Hrows. unfold select_active_duplicate. clear Hrows.
      induction before as [|x before IH]; simpl.
      - rewrite bool_decide_eq_true_2; [|done]. by rewrite Ha.
      - case_bool_decide as Hx; simpl.
        + rewrite (Hbefore x); [|by left|done].
          apply IH. intros y Hy. apply Hbefore. by right.
        + apply IH. intros y Hy. apply Hbefore. by right. }
    split; [done|]. unfold runs.create_run. rewrite Hv, Hh. simpl.
    unfold create_from_dedup. rewrite Hd. simpl in Hsel. by rewrite Hsel.
  Qed.
End admission.

Lemma bound_key_wins_witness :
  validate (post "B" (Some "K")) = inr [(py "x", JStr (py "B"))] /\
  idempotency_key_header (post "B" (Some "K")) = Some "K" /\
  "K" <> EmptyString /\
  lookup_failure (calm 20 2%N) = None /\
  idempotency_keys bound_db !! "K" = Some 1%N /\
  get (model_runs bound_db) 1%N = Some (inserted 10 1%N) /\
  create_run stand_in_digest (post "B" (Some "K")) (calm 20 2%N) bound_db =
    ((RunBody (_serialize_run (inserted 10 1%N)), 200), bound_db, []).
Proof.
  assert ("K" <> EmptyString) as Hne by discriminate.
  assert (idempotency_keys bound_db !! "K" = Some 1%N) as Hk
    by (vm_compute; reflexivity).
  assert (get (model_runs bound_db) 1%N = Some (inserted 10 1%N)) as Hr
    by (vm_compute; reflexivity).
  repeat (split; [first [reflexivity|assumption]|]).
  exact (bound_key_wins stand_in_digest (post "B" (Some "K")) (calm 20 2%N)
           bound_db _ "K" 1%N (inserted 10 1%N)
           eq_refl eq_refl Hne eq_refl Hk Hr).
Defined.

(** [tests/test_api_integration.py], [test_explicit_idempotency]: 201 for
    the first request, 200 with the same id for the second, whose
    parameters differ. *)
Example test_explicit_idempotency :
  (create_run stand_in_digest (post "A" (Some "K")) (calm 10 1%N)
     empty_db).1.1
    = (RunBody (_serialize_run (inserted 10 1%N)), 201) /\
  (create_run stand_in_digest (post "B" (Some "K")) (calm 20 2%N)
     bound_db).1.1
    = (RunBody (_serialize_run (inserted 10 1%N)), 200).
Proof. split; vm_compute; reflexivity. Qed.

(** [test_implicit_deduplication]: 201, then 200 with the same id. *)
Example test_implicit_deduplication :
  (create_run stand_in_digest (post "A" None) (calm 10 1%N) empty_db).1.1
    = (RunBody (_serialize_run (inserted 10 1%N)), 201) /\
  (create_run stand_in_digest (post "A" None) (calm 20 2%N)
     (concurrent_post (post "A" None) (calm 10 1%N) empty_db)).1.1
    = (RunBody (_serialize_run (inserted 10 1%N)), 200).
Proof. split; vm_compute; reflexivity. Qed.

(** C6, as the spec words it, fails. A request with key K finds K unbound
    and no duplicate; before it commits, another request with K is served
    and binds K to run 1.  The answer is 409, not run 1 with 200. *)
Lemma conflict_not_recovered :
  let winner := concurrent_post (post "A" (Some "K")) (calm 10 1%N) in
  let response :=
    (create_run stand_in_digest (post "A" (Some "K"))
       (overtaken 5 2%N winner) empty_db).1.1 in
  idempotency_keys empty_db !! "K" = None /\
  idempotency_keys (winner empty_db) !! "K" = Some 1%N /\
  get (model_runs (winner empty_db)) 1%N = Some (inserted 10 1%N) /\
  response = (ErrorBody "Conflict during creation", 409) /\
  response <> (RunBody (_serialize_run (inserted 10 1%N)), 200).
Proof.
  intros winner response.
  assert (response = (ErrorBody "Conflict during creation", 409)) as Hr
    by (vm_compute; reflexivity).
  repeat (split; [first [exact Hr|vm_compute; reflexivity]|]).
  rewrite Hr. discriminate.
Qed.

Lemma binding_conflict_is_409_witness :
  let winner := concurrent_post (post "A" (Some "K")) (calm 10 1%N) in
  create_run stand_in_digest (post "A" (Some "K")) (overtaken 5 2%N winner)
    empty_db =
  ((ErrorBody "Conflict during creation", 409), winner empty_db, []).
Proof.
  intros winner.
  refine (binding_conflict_is_409 stand_in_digest (post "A" (Some "K"))
            (overtaken 5 2%N winner) empty_db [(py "x", JStr (py "A"))] "K"
            eq_refl eq_refl eq_refl eq_refl eq_refl eq_refl _ _).
  - apply (bool_decide_unpack _). vm_compute. reflexivity.
  - exists 1%N. vm_compute. reflexivity.
Defined.

(** The store after the race of [raced_db]: the run that started later
    comes first. *)
Lemma raced_db_rows : model_runs raced_db = [inserted 2 2%N; inserted 1 1%N].
Proof. vm_compute. reflexivity. Qed.

(** C7, as the spec words it, fails. After two admissions of the same
    parameters have raced, the store yields the run created at 2 before the
    run created at 1; both are PENDING with the same hash, and the lookup,
    and with it the next admission, returns the one created at 2. *)
Lemma dedup_lookup_not_earliest :
  let h := (canonicalize_params stand_in_digest [(py "x", JStr (py "A"))]).2 in
  select_active_duplicate h (model_runs raced_db) = Some (inserted 2 2%N) /\
  (create_run stand_in_digest (post "A" None) (calm 3 3%N) raced_db).1.1
    = (RunBody (_serialize_run (inserted 2 2%N)), 200) /\
  In (inserted 1 1%N) (model_runs raced_db) /\
  payload_hash (inserted 1 1%N) = h /\
  active (inserted 1 1%N) = true /\
  created_at (inserted 1 1%N) < created_at (inserted 2 2%N).
Proof.
  intros h. rewrite raced_db_rows.
  split; [vm_compute; reflexivity|].
  split; [vm_compute; reflexivity|].
  split; [right; left; reflexivity|].
  split; [reflexivity|]. split; [reflexivity|]. reflexivity.
Qed.

Lemma implicit_dedup_returns_first_match_witness :
  let h := (canonicalize_params stand_in_digest [(py "x", JStr (py "A"))]).2 in
  select_active_duplicate h (model_runs raced_db) = Some (inserted 2 2%N) /\
  create_run stand_in_digest (post "A" None) (calm 3 3%N) raced_db =
    ((RunBody (_serialize_run (inserted 2 2%N)), 200), raced_db, []).
Proof.
  intros h.
  refine (implicit_dedup_returns_first_match stand_in_digest
            (post "A" None) (calm 3 3%N) raced_db [(py "x", JStr (py "A"))]
            [] (inserted 2 2%N) [inserted 1 1%N]
            eq_refl eq_refl eq_refl raced_db_rows eq_refl eq_refl _).
  intros x [].
Defined.

End runs_spec.

(** ** Further properties of the lease operations *)

Module lease_facts.
Import models session loader main protocol invariants store_facts loader_spec
  protocol_spec scenarios.

(** A call, seen from the row of the run: nothing happens, or the
    statement of the call is applied to that row. *)
Lemma perform_row run_id c rows r :
  primary_key rows ->
  get rows run_id = Some r ->
  (perform run_id c rows = rows /\ acquires run_id c rows = false) \/
  (call_failure c = None /\
   guard (stmt_of run_id (op c)) (call_now c) r = true /\
   perform run_id c rows =
     update_row run_id (assign (stmt_of run_id (op c)) (call_now c)) rows /\
   get (perform run_id c rows) run_id =
     Some (assign (stmt_of run_id (op c)) (call_now c) r) /\
   acquires run_id c rows =
     match op c with Acquire _ => true | _ => false end).
Proof.
  intros Hpk Hget.
  assert (acquires run_id c rows =
          match op c with
          | Acquire _ =>
              match call_failure c with
              | Some _ => false
              | None => acquire_guard (call_now c) r
              end
          | _ => false
          end) as Hacq.
  { unfold acquires. destruct (op c); try done.
    destruct (call_failure c); [done|].
    rewrite (acquire_lease_unique _ _ _ _ r Hpk Hget).
    by destruct (acquire_guard _ r). }
  rewrite perform_run_stmt; [|done].
  rewrite (run_stmt_unique _ _ _ _ r); try done; [|by rewrite target_stmt_of].
  rewrite target_stmt_of, Hacq.
  destruct (call_failure c); [left; by destruct (op c)|].
  destruct (guard _ _ r) eqn:Hg.
  - right. split; [done|]. split; [done|]. split; [done|]. split.
    + apply get_update_row_eq; [done|].
      rewrite assign_stmt_of_id. by apply get_Some in Hget as [_ ?].
    + destruct (op c); done.
  - left. split; [done|]. by destruct (op c).
Qed.

(** X1. [attempt_count] counts the acquisitions: after any sequence of
    calls on a run, its [attempt_count] is what it was plus the number of
    [acquire_lease] calls that returned true. *)
Theorem attempt_count_counts_acquisitions run_id calls : forall rows r,
  primary_key rows ->
  get rows run_id = Some r ->
  exists r',
    get (perform_all run_id calls rows) run_id = Some r' /\
    attempt_count r' =
      attempt_count r + Z.of_nat (acquisitions run_id calls rows).
Proof.
  induction calls as [|c calls IH]; intros rows r Hpk Hget; simpl.
  { exists r. split; [done|]. lia. }
  pose proof (primary_key_perform run_id c rows Hpk) as Hpk'.
  destruct (perform_row run_id c rows r Hpk Hget)
    as [[Hp Ha]|(_ & _ & _ & Hget' & Ha)].
  - rewrite Hp in *. rewrite Ha.
    destruct (IH rows r Hpk Hget) as (r' & H1 & H2). exists r'.
    split; [done|]. rewrite H2. simpl. lia.
  - destruct (IH _ _ Hpk' Hget') as (r' & H1 & H2). exists r'.
    split; [done|]. rewrite H2, Ha.
    destruct (op c); simpl; lia.
Qed.

Lemma attempt_count_counts_acquisitions_witness :
  let calls :=
    [ {| op := Acquire "host-a-101"; call_now := 0; call_failure := None |};
      {| op := Renew "host-a-101"; call_now := timedelta 20;
         call_failure := None |};
      {| op := Acquire "host-b-202"; call_now := timedelta 90;
         call_failure := None |};
      {| op := FinalizeSuccess "host-b-202" (result_path 1%N);
         call_now := timedelta 100; call_failure := None |} ] in
  exists r',
    get (perform_all 1%N calls [fresh_run 1%N 0]) 1%N = Some r' /\
    attempt_count r' =
      attempt_count (fresh_run 1%N 0)
      + Z.of_nat (acquisitions 1%N calls [fresh_run 1%N 0%Z]).
Proof.
  intros calls.
  exact (attempt_count_counts_acquisitions 1%N calls [fresh_run 1%N 0]
           (fresh_run 1%N 0) (primary_key_singleton _) eq_refl).
Defined.

(** X2. The inputs of a run are immutable and [started_at] is set once:
    after any sequence of calls the row of the run has the same [id],
    [parameters], [payload_hash] and [created_at], and a [started_at] that
    was set is unchanged. *)
Theorem inputs_immutable run_id calls : forall rows r,
  primary_key rows ->
  get rows run_id = Some r ->
  exists r',
    get (perform_all run_id calls rows) run_id = Some r' /\
    id r' = id r /\
    parameters r' = parameters r /\
    payload_hash r' = payload_hash r /\
    created_at r' = created_at r /\
    (forall t, started_at r = Some t -> started_at r' = Some t).
Proof.
  induction calls as [|c calls IH]; intros rows r Hpk Hget; simpl.
  { by exists r. }
  pose proof (primary_key_perform run_id c rows Hpk) as Hpk'.
  destruct (perform_row run_id c rows r Hpk Hget)
    as [[Hp _]|(_ & _ & _ & Hget' & _)].
  - rewrite Hp. by apply IH.
  - destruct (IH _ _ Hpk' Hget') as (r' & H1 & H2 & H3 & H4 & H5 & H6).
    exists r'. split; [done|].
    destruct (op c); simpl in *; repeat split; try done.
    intros t Ht. apply H6. unfold coalesce. by rewrite Ht.
Qed.

Lemma inputs_immutable_witness :
  let calls :=
    [ {| op := Acquire "host-a-101"; call_now := 0; call_failure := None |};
      {| op := Acquire "host-b-202"; call_now := timedelta 90;
         call_failure := None |};
      {| op := FinalizeFailure "boom"; call_now := timedelta 100;
         call_failure := None |} ] in
  exists r',
    get (perform_all 1%N calls [fresh_run 1%N 0]) 1%N = Some r' /\
    id r' = 1%N /\
    parameters r' = parameters (fresh_run 1%N 0) /\
    payload_hash r' = "h" /\
    created_at r' = 0 /\
    (forall t, started_at (fresh_run 1%N 0) = Some t ->
       started_at r' = Some t).
Proof.
  intros calls.
  exact (inputs_immutable 1%N calls [fresh_run 1%N 0]
           (fresh_run 1%N 0) (primary_key_singleton _) eq_refl).
Defined.

(** X3. The calls on one run leave every other run alone and keep the ids
    of the table, hence its primary key. *)
Theorem other_runs_untouched run_id calls : forall rows,
  primary_key rows ->
  map id (perform_all run_id calls rows) = map id rows /\
  forall other, other <> run_id ->
    get (perform_all run_id calls rows) other = get rows other.
Proof.
  induction calls as [|c calls IH]; intros rows Hpk; simpl; [done|].
  pose proof (primary_key_perform run_id c rows Hpk) as Hpk'.
  destruct (IH _ Hpk') as [H1 H2].
  assert (map id (perform run_id c rows) = map id rows /\
          forall other, other <> run_id ->
            get (perform run_id c rows) other = get rows other) as [H3 H4].
  { destruct (get rows run_id) as [r|] eqn:Hget.
    - destruct (perform_row run_id c rows r Hpk Hget)
        as [[Hp _]|(_ & _ & Hp & _ & _)]; rewrite Hp; [done|].
      split.
      + apply ids_update_row. intros x. apply assign_stmt_of_id.
      + intros other Hne. apply get_update_row_ne; [done|].
        intros x. apply assign_stmt_of_id.
    - rewrite perform_run_stmt, run_stmt_absent; try done.
      by rewrite target_stmt_of. }
  split; [by rewrite H1|].
  intros other Hne. rewrite H2, H4; done.
Qed.

Lemma other_runs_untouched_witness :
  let calls :=
    [ {| op := Acquire "host-a-101"; call_now := 0; call_failure := None |};
      {| op := FinalizeFailure "boom"; call_now := timedelta 100;
         call_failure := None |} ] in
  let rows := [fresh_run 1%N 0; fresh_run 2%N 5] in
  map id (perform_all 1%N calls rows) = map id rows /\
  forall other, other <> 1%N ->
    get (perform_all 1%N calls rows) other = get rows other.
Proof.
  intros calls rows.
  apply (other_runs_untouched 1%N calls rows).
  apply (bool_decide_unpack _). vm_compute. reflexivity.
Defined.

Lemma acquire_lease_true_inv rows run_id worker_id now rows1 :
  primary_key rows ->
  acquire_lease run_id worker_id now None rows = (Returns true, rows1) ->
  exists r,
    get rows run_id = Some r /\
    acquire_guard now r = true /\
    rows1 = update_row run_id (acquire_values worker_id now) rows /\
    primary_key rows1 /\
    get rows1 run_id = Some (acquire_values worker_id now r).
Proof.
  intros Hpk Ha. destruct (get rows run_id) as [r|] eqn:Hget.
  2:{ by rewrite acquire_lease_absent in Ha. }
  rewrite (acquire_lease_unique _ _ _ _ r Hpk Hget) in Ha.
  destruct (acquire_guard now r) eqn:Hg; [|done].
  injection Ha as <-. exists r. repeat split; try done.
  - unfold primary_key. by rewrite ids_update_row.
  - apply get_update_row_eq; [done|]. by apply get_Some in Hget as [_ ?].
Qed.

(** X4. Lease reclamation: after an [acquire_lease] that returned true at
    [t0], with nothing in between, an [acquire_lease] of any worker at [t1]
    returns true exactly when the lease has run out, [t0 + 60 s < t1]. *)
Theorem reacquire_after_expiry rows run_id w1 t0 rows1 w2 t1 :
  primary_key rows ->
  acquire_lease run_id w1 t0 None rows = (Returns true, rows1) ->
  (acquire_lease run_id w2 t1 None rows1).1
    = Returns (bool_decide (t0 + timedelta 60 < t1)).
Proof.
  intros Hpk Ha.
  destruct (acquire_lease_true_inv _ _ _ _ _ Hpk Ha)
    as (r & _ & _ & _ & Hpk1 & Hget1).
  rewrite (acquire_lease_unique _ _ _ _ _ Hpk1 Hget1).
  unfold acquire_guard at 1. simpl.
  change (timedelta LEASE_DURATION_SECONDS) with (timedelta 60).
  case_bool_decide as Hlt.
  - by rewrite (proj2 (Z.ltb_lt _ _) Hlt).
  - by rewrite (proj2 (Z.ltb_ge _ _)); [|lia].
Qed.

Lemma reacquire_after_expiry_witness :
  (acquire_lease 1%N "host-b-202" (timedelta 90) None
     (acquire_lease 1%N "host-a-101" 0 None [fresh_run 1%N 0]).2).1
    = Returns (bool_decide (0 + timedelta 60 < timedelta 90)).
Proof.
  exact (reacquire_after_expiry [fresh_run 1%N 0] 1%N "host-a-101" 0 _
           "host-b-202" (timedelta 90) (primary_key_singleton _) eq_refl).
Defined.

(** X5. A renewal moves the end of the lease: after a [renew_lease] that
    returned true at [t1] on a RUNNING run, an [acquire_lease] of any worker
    at [t2] returns true exactly when [t1 + 60 s < t2]. *)
Theorem renewal_extends_lease rows run_id r w t1 rows1 w2 t2 :
  primary_key rows ->
  get rows run_id = Some r ->
  status r = RUNNING ->
  renew_lease run_id w t1 None rows = (Returns true, rows1) ->
  (acquire_lease run_id w2 t2 None rows1).1
    = Returns (bool_decide (t1 + timedelta 60 < t2)).
Proof.
  intros Hpk Hget Hs Hr.
  rewrite (renew_lease_unique _ _ _ _ r Hpk Hget) in Hr.
  destruct (renew_guard w t1 r); [|done]. injection Hr as <-.
  rewrite (acquire_lease_unique _ _ _ _ (renew_values t1 r)).
  - unfold acquire_guard at 1. simpl. rewrite Hs.
    change (timedelta LEASE_DURATION_SECONDS) with (timedelta 60).
    case_bool_decide as Hlt.
    + by rewrite (proj2 (Z.ltb_lt _ _) Hlt).
    + by rewrite (proj2 (Z.ltb_ge _ _)); [|lia].
  - unfold primary_key. by rewrite ids_update_row.
  - apply get_update_row_eq; [done|]. by apply get_Some in Hget as [_ ?].
Qed.

Lemma renewal_extends_lease_witness :
  let rows := (acquire_lease 1%N "host-a-101" 0 None [fresh_run 1%N 0]).2 in
  let rows1 := (renew_lease 1%N "host-a-101" (timedelta 20) None rows).2 in
  (acquire_lease 1%N "host-b-202" (timedelta 70) None rows1).1
    = Returns (bool_decide (timedelta 20 + timedelta 60 < timedelta 70)).
Proof.
  intros rows rows1.
  exact (renewal_extends_lease rows 1%N
           (acquire_values "host-a-101" 0 (fresh_run 1%N 0)) "host-a-101"
           (timedelta 20) rows1 "host-b-202" (timedelta 70)
           (primary_key_singleton _) eq_refl eq_refl eq_refl).
Defined.

(** X6. Lease loss is visible to the old owner: once another worker's
    [acquire_lease] has returned true, every [renew_lease] of a different
    worker returns false and the success finalization of a different worker
    writes nothing, until the run is acquired again. *)
Theorem old_owner_is_locked_out rows run_id w2 t rows1 w1 t' failure path :
  primary_key rows ->
  acquire_lease run_id w2 t None rows = (Returns true, rows1) ->
  w1 <> w2 ->
  renew_lease run_id w1 t' failure rows1 = (Returns false, rows1) /\
  run_stmt failure (success_stmt run_id w1 path) t' rows1 = rows1.
Proof.
  intros Hpk Ha Hne.
  destruct (acquire_lease_true_inv _ _ _ _ _ Hpk Ha)
    as (r & _ & _ & _ & Hpk1 & Hget1).
  split.
  - destruct failure; [done|].
    rewrite (renew_lease_unique _ _ _ _ _ Hpk1 Hget1).
    unfold renew_guard. simpl. rewrite bool_decide_eq_false_2; [done|].
    congruence.
  - rewrite (run_stmt_unique failure (success_stmt run_id w1 path) t' rows1
               _ Hpk1 Hget1).
    destruct failure; [done|]. simpl.
    rewrite bool_decide_eq_false_2; [done|]. congruence.
Qed.

Lemma old_owner_is_locked_out_witness :
  let rows := (acquire_lease 1%N "host-a-101" 0 None [fresh_run 1%N 0]).2 in
  let rows1 := (acquire_lease 1%N "host-b-202" (timedelta 90) None rows).2 in
  renew_lease 1%N "host-a-101" (timedelta 100) None rows1
    = (Returns false, rows1) /\
  run_stmt None (success_stmt 1%N "host-a-101" (result_path 1%N))
    (timedelta 100) rows1 = rows1.
Proof.
  intros rows rows1.
  refine (old_owner_is_locked_out rows 1%N "host-b-202" (timedelta 90) rows1
            "host-a-101" (timedelta 100) None (result_path 1%N)
            (primary_key_singleton _) eq_refl _).
  discriminate.
Defined.

(** X7. A run id that is not in the table: [acquire_lease] and
    [renew_lease] return false, [execute_run] returns without running the
    model, and the table is unchanged. *)
Theorem missing_run_is_refused rows run_id w now e :
  get rows run_id = None ->
  acquire_failure e = None ->
  acquire_lease run_id w now None rows = (Returns false, rows) /\
  renew_lease run_id w now None rows = (Returns false, rows) /\
  execute_run e run_id rows = (Returns tt, rows).
Proof.
  intros Hget Hf. split; [by apply acquire_lease_absent|].
  split; [by apply renew_lease_absent|].
  unfold execute_run. by rewrite Hf, acquire_lease_absent.
Qed.

Lemma missing_run_is_refused_witness :
  acquire_lease 7%N "host-a-101" 0 None [fresh_run 1%N 0]
    = (Returns false, [fresh_run 1%N 0]) /\
  renew_lease 7%N "host-a-101" 0 None [fresh_run 1%N 0]
    = (Returns false, [fresh_run 1%N 0]) /\
  execute_run worker_B 7%N [fresh_run 1%N 0]
    = (Returns tt, [fresh_run 1%N 0]).
Proof.
  exact (missing_run_is_refused [fresh_run 1%N 0] 7%N "host-a-101" 0
           worker_B eq_refl eq_refl).
Defined.

Lemma update_row_twice run_id f g rows :
  (forall x, id (g x) = id x) ->
  update_row run_id f (update_row run_id g rows)
    = update_row run_id (fun x => f (g x)) rows.
Proof.
  intros Hg. unfold update_row. rewrite map_map. apply map_ext.
  intros x. destruct (N.eqb_spec (id x) run_id) as [Heq|Hne].
  - by rewrite Hg, (proj2 (N.eqb_eq _ _) Heq).
  - by rewrite (proj2 (N.eqb_neq _ _) Hne).
Qed.

(** X8. An undisturbed heartbeat keeps the lease: when the worker owns the
    run and in every iteration [stop_event] is unset, the store works and
    no other session commits, the loop renews at every iteration and is
    still running; the table differs from the initial one only in the
    [lease_expires_at] of the run, 60 s after the last renewal. *)
Theorem heartbeat_keeps_lease run_id w ticks : forall rows r,
  primary_key rows ->
  get rows run_id = Some r ->
  lease_owner r = Some w ->
  Forall undisturbed ticks ->
  heartbeat_run run_id w ticks rows =
    (Sleeping, length ticks,
     match last_tick_now ticks with
     | Some t => update_row run_id (renew_values t) rows
     | None => rows
     end).
Proof.
  induction ticks as [|k ticks IH]; intros rows r Hpk Hget Hown Hu; [done|].
  apply Forall_cons in Hu as [(H1 & H2 & H3 & H4) Hu].
  simpl. rewrite H1, H2, H3, H4.
  rewrite (renew_lease_unique _ _ _ _ r Hpk Hget).
  unfold renew_guard. rewrite bool_decide_eq_true_2; [|done].
  rewrite (IH _ (renew_values (tick_now k) r)); try done.
  - f_equal. unfold last_tick_now. destruct ticks as [|k' ticks]; [done|].
    change (last (k :: k' :: ticks)) with (last (k' :: ticks)).
    destruct (last (k' :: ticks)) as [kl|] eqn:Hl.
    + simpl. by rewrite update_row_twice.
    + by apply last_None in Hl.
  - unfold primary_key. by rewrite ids_update_row.
  - apply get_update_row_eq; [done|]. by apply get_Some in Hget as [_ ?].
Qed.

Lemma heartbeat_keeps_lease_witness :
  let rows := (acquire_lease 1%N "host-a-101" 0 None [fresh_run 1%N 0]).2 in
  let tick t :=
    {| stop_before_sleep := false; concurrent := quiet;
       stop_after_sleep := false; tick_now := t; tick_failure := None |} in
  let ticks := [tick (timedelta 20); tick (timedelta 40)] in
  heartbeat_run 1%N "host-a-101" ticks rows =
    (Sleeping, length ticks,
     match last_tick_now ticks with
     | Some t => update_row 1%N (renew_values t) rows
     | None => rows
     end).
Proof.
  intros rows tick ticks.
  refine (heartbeat_keeps_lease 1%N "host-a-101" ticks rows
            (acquire_values "host-a-101" 0 (fresh_run 1%N 0))
            (primary_key_singleton _) eq_refl eq_refl _).
  repeat constructor.
Defined.

End lease_facts.

(** ** Further properties of the worker executor *)

Module worker_facts.
Import models session loader main protocol invariants store_facts loader_spec
  protocol_spec scenarios.

(** X9. The success path of [execute_run]: when the acquisition succeeds,
    the model returns and nothing fails, the run is finalized as SUCCEEDED
    (with [result_ref] the result path and [finished_at] the clock of
    step 6) exactly when the row the worker finds still has it as
    [lease_owner]; otherwise the table is left as found.  Either way the
    call returns normally. *)
Theorem execute_run_success e run_id rows r result r1 :
  primary_key rows ->
  get rows run_id = Some r ->
  acquire_guard (acquire_now e) r = true ->
  acquire_failure e = None ->
  fetch_failure e = None ->
  runner_run e (parameters r) = Returns result ->
  sink_failure e = None ->
  success_failure e = None ->
  primary_key (found e run_id rows) ->
  get (found e run_id rows) run_id = Some r1 ->
  execute_run e run_id rows =
    (Returns tt,
     if bool_decide (lease_owner r1 = Some (worker_id e))
     then update_row run_id
            (success_values (result_path run_id) (success_now e))
            (found e run_id rows)
     else found e run_id rows).
Proof.
  intros Hpk Hget Hg Ha Hf Hr Hs Hsf Hpk1 Hget1.
  unfold execute_run. rewrite Ha.
  rewrite (acquire_lease_unique _ _ _ _ r Hpk Hget), Hg.
  unfold attempt. rewrite Hf.
  rewrite (get_update_row_eq _ _ _ r Hget).
  2:{ by apply get_Some in Hget as [_ ?]. }
  simpl. rewrite Hr, Hs, Hsf. unfold execute. fold (found e run_id rows).
  rewrite (apply_update_unique
             (success_stmt run_id (worker_id e) (result_path run_id))
             _ _ r1 Hpk1 Hget1).
  simpl. by destruct (bool_decide (lease_owner r1 = Some (worker_id e))).
Qed.

Lemma execute_run_success_witness :
  execute_run worker_B 1%N [fresh_run 1%N 0] =
    (Returns tt,
     if bool_decide
          (lease_owner
             (acquire_values "host-b-202" (timedelta 90) (fresh_run 1%N 0))
           = Some (worker_id worker_B))
     then update_row 1%N
            (success_values (result_path 1%N) (success_now worker_B))
            (found worker_B 1%N [fresh_run 1%N 0])
     else found worker_B 1%N [fresh_run 1%N 0]).
Proof.
  exact (execute_run_success worker_B 1%N [fresh_run 1%N 0]
           (fresh_run 1%N 0) mock_result
           (acquire_values "host-b-202" (timedelta 90) (fresh_run 1%N 0))
           (primary_key_singleton _) eq_refl eq_refl eq_refl eq_refl eq_refl
           eq_refl eq_refl (primary_key_singleton _) eq_refl).
Defined.

(** X10. A delivery for a run that cannot be acquired is a no-op: when the
    run is neither PENDING nor RUNNING with an expired lease (it is
    finished, or another worker holds it), [execute_run] returns without
    running the model and the table is unchanged. *)
Theorem execute_run_refused e run_id rows r :
  primary_key rows ->
  get rows run_id = Some r ->
  ~ (status r = PENDING \/
     (status r = RUNNING /\
      exists t, lease_expires_at r = Some t /\ t < acquire_now e)) ->
  acquire_failure e = None ->
  execute_run e run_id rows = (Returns tt, rows).
Proof.
  intros Hpk Hget Hn Ha. unfold execute_run. rewrite Ha.
  rewrite (acquire_lease_unique _ _ _ _ r Hpk Hget).
  destruct (acquire_guard (acquire_now e) r) eqn:Hg; [|done].
  exfalso. apply Hn. by apply acquire_guard_spec.
Qed.

Lemma execute_run_refused_witness :
  execute_run worker_B 1%N [completed_by_B] = (Returns tt, [completed_by_B]).
Proof.
  refine (execute_run_refused worker_B 1%N [completed_by_B] completed_by_B
            (primary_key_singleton _) eq_refl _ eq_refl).
  intros [H|[H _]]; discriminate H.
Defined.



End worker_facts.

(** ** Further properties of the admission *)

Module admission_facts.
Import utils models session runs runs_read invariants store_facts scenarios.

Lemma get_app_old rows run run_id r :
  get rows run_id = Some r -> get (rows ++ [run]) run_id = Some r.
Proof.
  unfold get. induction rows as [|x rows IH]; simpl; [done|].
  by destruct (id x =? run_id)%N.
Qed.

Lemma get_app_new rows run :
  id run ∉ map id rows -> get (rows ++ [run]) (id run) = Some run.
Proof.
  unfold get. induction rows as [|x rows IH]; simpl.
  - intros _. by rewrite N.eqb_refl.
  - intros Hn. destruct (N.eqb_spec (id x) (id run)) as [Heq|Hne].
    + exfalso. apply Hn. rewrite Heq. left.
    + apply IH. intros Hin. apply Hn. by right.
Qed.

Lemma select_app_new h rows run :
  select_active_duplicate h rows = None ->
  payload_hash run = h -> active run = true ->
  select_active_duplicate h (rows ++ [run]) = Some run.
Proof.
  unfold select_active_duplicate.
  induction rows as [|x rows IH]; simpl.
  - intros _ -> ->. by rewrite bool_decide_eq_true_2.
  - destruct (bool_decide (payload_hash x = h) && active x); [done|].
    apply IH.
Qed.

Lemma select_None h rows :
  select_active_duplicate h rows = None <->
  forall x, In x rows -> payload_hash x = h -> active x = false.
Proof.
  unfold select_active_duplicate. split.
  - intros H x Hx Hh. eapply find_none in H; [|exact Hx].
    simpl in H. rewrite bool_decide_eq_true_2 in H; done.
  - intros H. induction rows as [|x rows IH]; simpl; [done|].
    case_bool_decide as Hh; simpl.
    + rewrite (H x); [|by left|done]. apply IH.
      intros y Hy. apply H. by right.
    + apply IH. intros y Hy. apply H. by right.
Qed.

(** What a committed insert leaves in the store. *)
Lemma insert_and_commit_Returns sch run key db db' :
  insert_and_commit sch run key db = Returns db' ->
  (id run ∉ map id (model_runs db)) /\
  commit_failure sch = None /\
  model_runs db' = (model_runs db ++ [run])%list /\
  idempotency_keys db' =
    match key with
    | Some k => <[k := id run]> (idempotency_keys db)
    | None => idempotency_keys db
    end /\
  (forall k, key = Some k -> idempotency_keys db !! k = None).
Proof.
  unfold insert_and_commit. case_bool_decide as Hid; [done|].
  destruct key as [k|].
  - destruct (idempotency_keys db !! k) eqn:Hk; [done|].
    destruct (commit_failure sch); [done|]. intros [= <-].
    repeat split; try done. by intros ? [= <-].
  - destruct (commit_failure sch); [done|]. intros [= <-].
    repeat split; done.
Qed.

(** The only way to a 201. *)
Lemma create_from_dedup_201 sch key parameters h db body db' enqueued :
  create_from_dedup sch key parameters h db = ((body, 201), db', enqueued) ->
  dedup_failure sch = None /\
  select_active_duplicate h (model_runs (before_dedup sch db)) = None /\
  insert_and_commit sch (new_run sch parameters h) key
    (before_insert sch (before_dedup sch db)) = Returns db' /\
  body = RunBody (_serialize_run (new_run sch parameters h)) /\
  enqueued =
    match enqueue_failure sch with Some _ => [] | None => [new_id sch] end.
Proof.
  unfold create_from_dedup.
  destruct (dedup_failure sch) as [e|]; [by destruct e|].
  destruct (select_active_duplicate _ _); [done|].
  destruct (insert_and_commit _ _ _ _) as [d|e]; [|by destruct e].
  intros [= <- <- <-]. repeat split; try done.
Qed.

(** X12. A fresh admission: for a valid body, with the key (if one is
    given) unbound, no active run with the same hash, an unused id and no
    failure of the store, [create_run] answers 201 with the new run, which
    is PENDING with [attempt_count] 0 and appended to what the other
    sessions committed; the key, if given, is bound to it; its id is handed
    to the queue, and a failure of the queue changes nothing else. *)
Theorem fresh_admission sha256_hexdigest req sch db parameters key :
  validate req = inr parameters ->
  truthy (idempotency_key_header req) = key ->
  (forall k, key = Some k ->
     lookup_failure sch = None /\
     idempotency_keys db !! k = None /\
     idempotency_keys (before_insert sch (before_dedup sch db)) !! k = None) ->
  dedup_failure sch = None ->
  (forall x, In x (model_runs (before_dedup sch db)) ->
     payload_hash x = (canonicalize_params sha256_hexdigest parameters).2 ->
     active x = false) ->
  new_id sch
    ∉ map id (model_runs (before_insert sch (before_dedup sch db))) ->
  commit_failure sch = None ->
  create_run sha256_hexdigest req sch db =
    ((RunBody
        (_serialize_run
           (new_run sch parameters
              (canonicalize_params sha256_hexdigest parameters).2)), 201),
     {| model_runs :=
          model_runs (before_insert sch (before_dedup sch db)) ++
          [new_run sch parameters
             (canonicalize_params sha256_hexdigest parameters).2];
        idempotency_keys :=
          match key with
          | Some k =>
              <[k := new_id sch]>
                (idempotency_keys (before_insert sch (before_dedup sch db)))
          | None =>
              idempotency_keys (before_insert sch (before_dedup sch db))
          end |},
     match enqueue_failure sch with Some _ => [] | None => [new_id sch] end).
Proof.
  intros Hv Hk Hkey Hd Hsel Hid Hc.
  apply select_None in Hsel.
  assert (create_from_dedup sch key parameters
            (canonicalize_params sha256_hexdigest parameters).2 db = 
          ((RunBody
        (_serialize_run
           (new_run sch parameters
              (canonicalize_params sha256_hexdigest parameters).2)), 201),
     {| model_runs :=
          model_runs (before_insert sch (before_dedup sch db)) ++
          [new_run sch parameters
             (canonicalize_params sha256_hexdigest parameters).2];
        idempotency_keys :=
          match key with
          | Some k =>
              <[k := new_id sch]>
                (idempotency_keys (before_insert sch (before_dedup sch db)))
          | None =>
              idempotency_keys (before_insert sch (before_dedup sch db))
          end |},
     match enqueue_failure sch with Some _ => [] | None => [new_id sch] end))
    as Hcreate.
  { unfold create_from_dedup. rewrite Hd, Hsel.
    unfold insert_and_commit. simpl.
    rewrite bool_decide_eq_false_2; [|done].
    destruct key as [k|].
    - destruct (Hkey k eq_refl) as (_ & _ & ->). by rewrite Hc.
    - by rewrite Hc. }
  unfold create_run. rewrite Hv, Hk. simpl.
  destruct key as [k|]; [|done].
  destruct (Hkey k eq_refl) as (-> & -> & _). done.
Qed.

Lemma fresh_admission_witness :
  create_run stand_in_digest (post "A" (Some "K")) (calm 10 1%N) empty_db =
    ((RunBody (_serialize_run (inserted 10 1%N)), 201),
     {| model_runs := [inserted 10 1%N];
        idempotency_keys := <["K" := 1%N]> ∅ |},
     [1%N]).
Proof.
  refine (fresh_admission stand_in_digest (post "A" (Some "K")) (calm 10 1%N)
            empty_db [(py "x", JStr (py "A"))] (Some "K")
            eq_refl eq_refl _ eq_refl _ _ eq_refl).
  - intros k [= <-]. repeat split; reflexivity.
  - intros x [].
  - apply (bool_decide_unpack _). vm_compute. reflexivity.
Defined.

(** The only way to a 201, from the request on. *)
Lemma create_run_201 sha256_hexdigest req sch db body db' enqueued :
  create_run sha256_hexdigest req sch db = ((body, 201), db', enqueued) ->
  exists parameters,
    validate req = inr parameters /\
    body = RunBody
             (_serialize_run
                (new_run sch parameters
                   (canonicalize_params sha256_hexdigest parameters).2)) /\
    dedup_failure sch = None /\
    select_active_duplicate
      (canonicalize_params sha256_hexdigest parameters).2
      (model_runs (before_dedup sch db)) = None /\
    insert_and_commit sch
      (new_run sch parameters
         (canonicalize_params sha256_hexdigest parameters).2)
      (truthy (idempotency_key_header req))
      (before_insert sch (before_dedup sch db)) = Returns db'.
Proof.
  unfold create_run.
  destruct (validate req) as [[b c]|parameters] eqn:Hv.
  { unfold validate in Hv. intros [= <- Hc _ _]. subst c.
    repeat case_match; simplify_eq. }
  cbn [canonicalize_params]. cbv zeta.
  destruct (truthy (idempotency_key_header req)) as [k|].
  - destruct (lookup_failure sch) as [e|]; [by destruct e|].
    destruct (idempotency_keys db !! k) as [rid|].
    + unfold _inspect_run. by destruct (get _ rid).
    + intros H. apply create_from_dedup_201 in H as (? & ? & ? & ? & ?).
      by exists parameters.
  - intros H. apply create_from_dedup_201 in H as (? & ? & ? & ? & ?).
    by exists parameters.
Qed.

(** X13. A retry with the same idempotency key finds the run: after a
    request with key [k] was answered 201, a request with [k] and any valid
    body, served on the store as the first left it, is answered 200 with
    the same run body, and changes nothing. *)
Theorem retry_with_key_returns_same_run
    sha256_hexdigest req1 sch1 db body db' enqueued k req2 sch2 parameters2 :
  create_run sha256_hexdigest req1 sch1 db = ((body, 201), db', enqueued) ->
  truthy (idempotency_key_header req1) = Some k ->
  validate req2 = inr parameters2 ->
  truthy (idempotency_key_header req2) = Some k ->
  lookup_failure sch2 = None ->
  create_run sha256_hexdigest req2 sch2 db' = ((body, 200), db', []).
Proof.
  intros H1 Hk1 Hv2 Hk2 Hf2.
  apply create_run_201 in H1 as (p1 & _ & -> & _ & _ & Hins).
  rewrite Hk1 in Hins.
  apply insert_and_commit_Returns in Hins as (Hid & _ & Hrows & Hkeys & _).
  unfold create_run. rewrite Hv2, Hk2. simpl. rewrite Hf2, Hkeys.
  rewrite lookup_insert_eq. unfold _inspect_run. rewrite Hrows.
  by rewrite (get_app_new _ _ Hid).
Qed.

Lemma retry_with_key_returns_same_run_witness :
  create_run stand_in_digest (post "B" (Some "K")) (calm 20 2%N) bound_db =
    ((RunBody (_serialize_run (inserted 10 1%N)), 200), bound_db, []).
Proof.
  exact (retry_with_key_returns_same_run stand_in_digest
           (post "A" (Some "K")) (calm 10 1%N) empty_db
           (RunBody (_serialize_run (inserted 10 1%N))) bound_db [1%N] "K"
           (post "B" (Some "K")) (calm 20 2%N) [(py "x", JStr (py "B"))]
           eq_refl eq_refl eq_refl eq_refl eq_refl).
Defined.

(** X14. Implicit de-duplication does not depend on the order of the keys:
    after a request without an idempotency key was answered 201 (no other
    session committing between its lookup and its insert), a request
    without a key whose parameters are the same up to the order of the
    keys, at any depth, served next, is answered 200 with the run of the
    first. *)
Theorem reordered_parameters_deduplicate
    sha256_hexdigest req1 sch1 db body db' enqueued m m' req2 sch2 :
  validate req1 = inr m ->
  truthy (idempotency_key_header req1) = None ->
  (forall d, before_insert sch1 d = d) ->
  create_run sha256_hexdigest req1 sch1 db = ((body, 201), db', enqueued) ->
  validate req2 = inr m' ->
  well_formed (JDict m) ->
  permute_items m m' ->
  truthy (idempotency_key_header req2) = None ->
  dedup_failure sch2 = None ->
  (forall d, before_dedup sch2 d = d) ->
  create_run sha256_hexdigest req2 sch2 db' = ((body, 200), db', []).
Proof.
  intros Hv1 Hk1 Hq1 H1 Hv2 Hwf Hp Hk2 Hd2 Hq2.
  apply create_run_201 in H1 as (p1 & Hv1' & -> & _ & Hsel & Hins).
  rewrite Hv1 in Hv1'. injection Hv1' as <-.
  rewrite Hk1, Hq1 in Hins.
  apply insert_and_commit_Returns in Hins as (_ & _ & Hrows & _ & _).
  assert ((canonicalize_params sha256_hexdigest m').2
          = (canonicalize_params sha256_hexdigest m).2) as Hh.
  { unfold canonicalize_params. cbn [snd].
    destruct (utils_spec.dumps_permute_keys (JDict m) (JDict m'))
      as [_ ->]; [by constructor|done|done]. }
  unfold create_run. rewrite Hv2, Hk2.
  cbn [canonicalize_params]. cbv zeta.
  change (sha256_hexdigest (dumps (JDict m')))
    with (canonicalize_params sha256_hexdigest m').2.
  rewrite Hh. unfold create_from_dedup. rewrite Hd2, Hq2, Hrows.
  by rewrite (select_app_new _ _ _ Hsel).
Qed.

Lemma reordered_parameters_deduplicate_witness :
  let req m := {| json_body := Some (JDict [(py "parameters", JDict m)]);
                  idempotency_key_header := None |} in
  let first :=
    create_run stand_in_digest (req nested_1) (calm 10 1%N) empty_db in
  create_run stand_in_digest (req nested_2) (calm 20 2%N) first.1.2
    = ((first.1.1.1, 200), first.1.2, []).
Proof.
  intros req first.
  refine (reordered_parameters_deduplicate stand_in_digest
            (req nested_1) (calm 10 1%N) empty_db first.1.1.1 first.1.2
            first.2 nested_1 nested_2 (req nested_2) (calm 20 2%N)
            eq_refl eq_refl (fun d => eq_refl) eq_refl eq_refl _ _
            eq_refl eq_refl (fun d => eq_refl)).
  - simpl. repeat split; apply (bool_decide_unpack _); vm_compute;
      reflexivity.
  - eapply pi_trans; [apply pi_swap|].
    apply pi_skip; [constructor|].
    apply pi_skip; [|constructor].
    constructor. apply pi_swap.
Defined.

(** Every path of [create_run]: it creates (201), or it commits nothing. *)
Lemma create_run_paths sha256_hexdigest req sch db :
  (exists body db' enqueued,
     create_run sha256_hexdigest req sch db = ((body, 201), db', enqueued)) \/
  (exists response db',
     create_run sha256_hexdigest req sch db = (response, db', []) /\
     response.2 <> 201 /\
     (db' = db \/ db' = before_dedup sch db \/
      db' = before_insert sch (before_dedup sch db))).
Proof.
  assert (forall key parameters h,
    (exists body db' enqueued,
       create_from_dedup sch key parameters h db
         = ((body, 201), db', enqueued)) \/
    (exists response db',
       create_from_dedup sch key parameters h db = (response, db', []) /\
       response.2 <> 201 /\
       (db' = db \/ db' = before_dedup sch db \/
        db' = before_insert sch (before_dedup sch db)))) as Hdedup.
  { intros key parameters h. unfold create_from_dedup.
    destruct (dedup_failure sch) as [e|].
    { right. destruct e; eexists _, _; (split; [done|]); split; auto. }
    destruct (select_active_duplicate _ _).
    { right. eexists _, _. split; [done|]. split; auto. }
    destruct (insert_and_commit _ _ _ _) as [d|e].
    - left. by eexists _, _, _.
    - right. destruct e; eexists _, _; (split; [done|]); split; auto. }
  unfold create_run.
  destruct (validate req) as [[b c]|parameters] eqn:Hv.
  { right. eexists _, _. split; [done|]. split; [|auto].
    unfold validate in Hv. repeat case_match; simplify_eq; done. }
  cbn [canonicalize_params]. cbv zeta.
  destruct (truthy (idempotency_key_header req)) as [k|]; [|apply Hdedup].
  destruct (lookup_failure sch) as [e|].
  { right. destruct e; eexists _, _; (split; [done|]); split; auto. }
  destruct (idempotency_keys db !! k) as [rid|]; [|apply Hdedup].
  right. eexists _, _. split; [done|]. split; [|auto].
  unfold _inspect_run. by destruct (get _ rid).
Qed.



Lemma consistent_insert sch run key db db' :
  consistent db ->
  insert_and_commit sch run key db = Returns db' ->
  consistent db'.
Proof.
  intros [Hpk Hfk] Hins.
  apply insert_and_commit_Returns in Hins as (Hid & _ & Hrows & Hkeys & _).
  split.
  - unfold primary_key in *. rewrite Hrows, map_app. simpl.
    apply NoDup_app. split; [done|]. split.
    + intros x Hx Hin. apply list_elem_of_singleton in Hin as ->. done.
    + apply NoDup_singleton.
  - intros k rid Hk. rewrite Hrows, map_app. apply elem_of_app.
    rewrite Hkeys in Hk. destruct key as [k'|].
    + destruct (decide (k' = k)) as [->|Hne].
      * rewrite lookup_insert_eq in Hk. injection Hk as <-.
        right. simpl. left.
      * rewrite lookup_insert_ne in Hk; [|done]. left. by eapply Hfk.
    + left. by eapply Hfk.
Qed.

(** X16. [create_run] keeps the store consistent: when the store has its
    primary key on [model_runs] and every bound key points to a stored run,
    and the other sessions keep that, the store after [create_run] has
    both again. *)
Theorem create_run_keeps_consistency sha256_hexdigest req sch db :
  (forall d, consistent d -> consistent (before_dedup sch d)) ->
  (forall d, consistent d -> consistent (before_insert sch d)) ->
  consistent db ->
  consistent (create_run sha256_hexdigest req sch db).1.2.
Proof.
  intros H1 H2 Hc.
  destruct (create_run_paths sha256_hexdigest req sch db)
    as [(body & d & q & H)|(resp & d & H & _ & Hd)]; rewrite H; simpl.
  - apply create_run_201 in H as (p & _ & _ & _ & _ & Hins).
    eapply consistent_insert; [|exact Hins]. auto.
  - destruct Hd as [->|[->| ->]]; auto.
Qed.

Lemma consistent_empty : consistent empty_db.
Proof.
  split; [apply NoDup_nil_2|]. intros k rid Hk.
  unfold empty_db in Hk. simpl in Hk. by rewrite lookup_empty in Hk.
Qed.

Lemma create_run_keeps_consistency_witness :
  consistent
    (create_run stand_in_digest (post "A" (Some "K")) (calm 10 1%N)
       empty_db).1.2.
Proof.
  exact (create_run_keeps_consistency stand_in_digest (post "A" (Some "K"))
           (calm 10 1%N) empty_db (fun d H => H) (fun d H => H)
           consistent_empty).
Defined.

(** X17. [create_run] only appends: on top of what the other sessions
    committed, the store after it has at most one more run, at the end of
    [model_runs], and every binding that was there, unchanged; no row and
    no binding is updated or removed. *)
Theorem create_run_only_appends sha256_hexdigest req sch db :
  exists base suffix,
    (base = db \/ base = before_dedup sch db \/
     base = before_insert sch (before_dedup sch db)) /\
    model_runs (create_run sha256_hexdigest req sch db).1.2
      = (model_runs base ++ suffix)%list /\
    (length suffix <= 1)%nat /\
    idempotency_keys base
      ⊆ idempotency_keys (create_run sha256_hexdigest req sch db).1.2.
Proof.
  destruct (create_run_paths sha256_hexdigest req sch db)
    as [(body & d & q & H)|(resp & d & H & _ & Hd)]; rewrite H; simpl.
  - apply create_run_201 in H as (p & _ & _ & _ & _ & Hins).
    apply insert_and_commit_Returns in Hins as (_ & _ & Hrows & Hkeys & Hk).
    eexists _, [_]. split; [right; right; reflexivity|].
    split; [exact Hrows|]. split; [simpl; lia|].
    rewrite Hkeys. destruct (truthy _) as [k|]; [|done].
    apply insert_subseteq. by apply Hk.
  - exists d, []. split; [done|]. split; [by rewrite app_nil_r|].
    split; [simpl; lia|done].
Qed.

End admission_facts.

(** ** From admission to result *)

Module end_to_end.
Import utils models session loader main runs runs_read invariants
  store_facts loader_spec scenarios admission_facts.

(** X18. A created run can be read back: after [create_run] answered 201,
    [GET /runs/<id>] on the store it left answers 200 with the same body,
    and [GET /runs/<id>/result] answers 409 with status PENDING. *)
Theorem created_run_is_readable
    sha256_hexdigest req sch db body db' enqueued :
  create_run sha256_hexdigest req sch db = ((body, 201), db', enqueued) ->
  get_run db' (new_id sch) = (body, 200) /\
  get_run_result db' (new_id sch)
    = (ResultNotAvailable "Result not available" "PENDING", 409).
Proof.
  intros H. apply create_run_201 in H as (p & _ & -> & _ & _ & Hins).
  apply insert_and_commit_Returns in Hins as (Hid & _ & Hrows & _ & _).
  pose proof (get_app_new _ _ Hid) as Hget. cbn [id new_run] in Hget.
  unfold get_run, get_run_result. by rewrite Hrows, Hget.
Qed.

Lemma created_run_is_readable_witness :
  get_run bound_db 1%N = (RunBody (_serialize_run (inserted 10 1%N)), 200) /\
  get_run_result bound_db 1%N
    = (ResultNotAvailable "Result not available" "PENDING", 409).
Proof.
  exact (created_run_is_readable stand_in_digest (post "A" (Some "K"))
           (calm 10 1%N) empty_db
           (RunBody (_serialize_run (inserted 10 1%N))) bound_db [1%N]
           eq_refl).
Defined.

(** X19. The happy path, end to end: a run created by [create_run] and then
    executed by a worker whose model returns, with no failure and no other
    session in between, is SUCCEEDED with [attempt_count] 1, [started_at]
    the clock of the acquisition and [finished_at] that of the
    finalization, and [GET /runs/<id>/result] answers 200 with the result
    path as reference. *)
Theorem created_run_completes
    sha256_hexdigest req sch db body db' enqueued params e result :
  create_run sha256_hexdigest req sch db = ((body, 201), db', enqueued) ->
  validate req = inr params ->
  primary_key (model_runs db') ->
  acquire_failure e = None ->
  fetch_failure e = None ->
  runner_run e params = Returns result ->
  sink_failure e = None ->
  success_failure e = None ->
  (forall rows, while_running e rows = rows) ->
  exists rows' run,
    execute_run e (new_id sch) (model_runs db') = (Returns tt, rows') /\
    get rows' (new_id sch) = Some run /\
    status run = SUCCEEDED /\
    attempt_count run = 1 /\
    started_at run = Some (acquire_now e) /\
    finished_at run = Some (success_now e) /\
    lease_owner run = Some (worker_id e) /\
    parameters run = params /\
    get_run_result
      {| model_runs := rows'; idempotency_keys := idempotency_keys db' |}
      (new_id sch)
      = (ResultReference (uuid_str (new_id sch))
           (Some (result_path (new_id sch)))
           "Content retrieval not implemented until Phase 5", 200).
Proof.
  intros H Hv Hpk Ha Hf Hr Hs Hsf Hq.
  apply create_run_201 in H as (p & Hv' & _ & _ & _ & Hins).
  rewrite Hv in Hv'. injection Hv' as <-.
  apply insert_and_commit_Returns in Hins as (Hid & _ & Hrows & _ & _).
  set (run0 := new_run sch params
                 (canonicalize_params sha256_hexdigest params).2) in *.
  assert (get (model_runs db') (new_id sch) = Some run0) as Hget.
  { rewrite Hrows. by apply (get_app_new _ run0). }
  set (rows1 := update_row (new_id sch)
                  (acquire_values (worker_id e) (acquire_now e))
                  (model_runs db')).
  assert (primary_key rows1) as Hpk1.
  { unfold primary_key, rows1. by rewrite ids_update_row. }
  assert (get rows1 (new_id sch)
          = Some (acquire_values (worker_id e) (acquire_now e) run0))
    as Hget1.
  { by apply get_update_row_eq. }
  eexists _, _. split.
  { unfold execute_run. rewrite Ha.
    rewrite (acquire_lease_unique _ _ _ _ run0 Hpk Hget). simpl.
    unfold attempt. rewrite Hf. fold rows1. rewrite Hget1, Hq. simpl.
    rewrite Hr, Hs, Hsf. unfold execute.
    rewrite (apply_update_unique
               (success_stmt (new_id sch) (worker_id e)
                  (result_path (new_id sch))) _ _ _ Hpk1 Hget1).
    simpl. rewrite bool_decide_eq_true_2; done. }
  assert (get (update_row (new_id sch)
                 (success_values (result_path (new_id sch)) (success_now e))
                 rows1) (new_id sch)
          = Some (success_values (result_path (new_id sch)) (success_now e)
                    (acquire_values (worker_id e) (acquire_now e) run0)))
    as Hget2.
  { by apply get_update_row_eq. }
  split; [exact Hget2|]. repeat (split; [reflexivity|]).
  unfold get_run_result. simpl. by rewrite Hget2.
Qed.

Lemma created_run_completes_witness :
  exists rows' run,
    execute_run worker_B 1%N (model_runs bound_db) = (Returns tt, rows') /\
    get rows' 1%N = Some run /\
    status run = SUCCEEDED /\
    attempt_count run = 1 /\
    started_at run = Some (timedelta 90) /\
    finished_at run = Some (timedelta 100) /\
    lease_owner run = Some "host-b-202" /\
    parameters run = [(py "x", JStr (py "A"))] /\
    get_run_result
      {| model_runs := rows'; idempotency_keys := idempotency_keys bound_db |}
      1%N
      = (ResultReference (uuid_str 1%N) (Some (result_path 1%N))
           "Content retrieval not implemented until Phase 5", 200).
Proof.
  refine (created_run_completes stand_in_digest (post "A" (Some "K"))
            (calm 10 1%N) empty_db
            (RunBody (_serialize_run (inserted 10 1%N))) bound_db [1%N]
            [(py "x", JStr (py "A"))] worker_B mock_result
            eq_refl eq_refl _ eq_refl eq_refl eq_refl eq_refl eq_refl
            (fun rows => eq_refl)).
  apply (bool_decide_unpack _). vm_compute. reflexivity.
Defined.

(** X20. [GET /healthz] checks both dependencies whatever the first check
    gives: the answer is 200 exactly when neither fails and 503 otherwise,
    [db] and [redis] are each reported as [ok] or [error] (never left at
    [unknown]), and [status] is [ok] or [degraded] accordingly. *)
Theorem health_check_reports_both db_failure redis_failure :
  let '(status, code) := health.health_check db_failure redis_failure in
  (code = 200 <-> db_failure = None /\ redis_failure = None) /\
  (code = 200 \/ code = 503) /\
  status !! "db"
    = Some (match db_failure with None => "ok" | Some _ => "error" end) /\
  status !! "redis"
    = Some (match redis_failure with None => "ok" | Some _ => "error" end) /\
  status !! "status"
    = Some (match db_failure, redis_failure with
            | None, None => "ok"
            | _, _ => "degraded"
            end).
Proof.
  destruct db_failure as [e1|], redis_failure as [e2|]; vm_compute;
    repeat split; auto; try (intros [? ?]; discriminate);
    try discriminate.
Qed.

(** The witnesses of two properties of the worker stated with the worker
    executor. *)
Lemma lease_calls_keep_terminal_witness :
  exists r',
    get (protocol.perform 1%N
           {| protocol.op := protocol.Acquire "host-a-101";
              protocol.call_now := timedelta 300;
              protocol.call_failure := None |}
           [completed_by_B]) 1%N = Some r' /\
    status r' = status completed_by_B /\
    finished_at r' = finished_at completed_by_B.
Proof.
  refine (main_spec.lease_calls_keep_terminal 1%N
            {| protocol.op := protocol.Acquire "host-a-101";
               protocol.call_now := timedelta 300;
               protocol.call_failure := None |}
            [completed_by_B] completed_by_B
            (primary_key_singleton _) eq_refl eq_refl _).
  exists "host-a-101". by left.
Defined.

Lemma execute_run_runner_failure_witness :
  execute_run (worker_A quiet) 1%N [fresh_run 1%N 0] =
    (Returns tt,
     update_row 1%N
       (failure_values "Simulated random failure in MockModelRunner"
          (timedelta 200))
       (update_row 1%N (acquire_values "host-a-101" 0) [fresh_run 1%N 0])).
Proof.
  exact (main_spec.execute_run_runner_failure (worker_A quiet) 1%N
           [fresh_run 1%N 0] (fresh_run 1%N 0)
           (RuntimeError "Simulated random failure in MockModelRunner")
           (acquire_values "host-a-101" 0 (fresh_run 1%N 0))
           (primary_key_singleton _) eq_refl eq_refl eq_refl eq_refl eq_refl
           eq_refl (primary_key_singleton _) eq_refl).
Defined.

End end_to_end.

(** ** The order of the canonical form *)

Module canonical_order.
Import utils utils_spec.

(** X21. The canonical form of a dict lists its items by ascending key:
    [dumps] of a dict (each key once) is the rendering, joined by commas
    without spaces, of its items sorted by key in code-point order, each
    item as the escaped key, a colon and the canonical form of the value;
    the sorted list holds the same items. *)
Theorem dict_items_in_key_order (m : list (pystr * json)) :
  NoDup (map fst m) ->
  dumps (JDict m) =
    "{" ++ String.concat ","
             (map (fun kv => encode_basestring_ascii kv.1 ++ ":" ++ dumps kv.2)
                  (sorted_items m))
        ++ "}" /\
  Sorted (fun p q : pystr * json => str_leb p.1 q.1 = true) (sorted_items m) /\
  sorted_items m ≡ₚ m.
Proof.
  intros Hnd. split; [by apply dumps_dict_sorted_first|]. split.
  - apply (@Sorted_merge_sort _ key_le _ key_le_total).
  - apply merge_sort_Permutation.
Qed.

Lemma dict_items_in_key_order_witness :
  dumps (JDict nested_2) =
    "{" ++ String.concat ","
             (map (fun kv => encode_basestring_ascii kv.1 ++ ":" ++ dumps kv.2)
                  (sorted_items nested_2))
        ++ "}" /\
  Sorted (fun p q : pystr * json => str_leb p.1 q.1 = true)
    (sorted_items nested_2) /\
  sorted_items nested_2 ≡ₚ nested_2.
Proof.
  apply (dict_items_in_key_order nested_2).
  apply (bool_decide_unpack _). vm_compute. reflexivity.
Defined.

End canonical_order.
